(** * TensorTrain: the block-TT tensor class of [TTtensors.py]

    A shallow embedding of the class [BlockTTtensor] and the properties of
    its constructor, accessors and interface sweep.

    - numpy arrays are a shape together with the row-major list of their
      elements; [np.reshape] and [transpose] are written out on that
      representation;
    - Python exceptions are the [Raise] results of an error monad;
    - the two streamed primitives of the module [Util]
      ([ApplyLinearTransform], [DoubleProducts]) are parameters acting on an
      abstract external world (the cache files they write), threaded through
      the sweep in program order. They are taken to return: an exception
      raised inside [Util] would leave the sweep as it is raised. *)

From Stdlib Require Import ZArith Lia DecimalString DecimalPos DecimalZ.
From stdpp Require Import base tactics option list list_numbers strings.

Local Open Scope Z_scope.

(** ** Python exceptions and the error monad *)

Inductive exn : Type :=
| IndexError          (* list, tuple or array index out of range *)
| ValueError          (* np.reshape to another size, np.zeros of a negative length *)
| UnboundLocalError.  (* a local variable read before assignment *)

Inductive result (A : Type) : Type :=
| Ok (a : A)
| Raise (e : exn).
Arguments Ok {A} a.
Arguments Raise {A} e.

Definition rbind {A B} (r : result A) (f : A → result B) : result B :=
  match r with
  | Ok a => f a
  | Raise e => Raise e
  end.

Declare Scope py_scope.
Delimit Scope py_scope with py.
Notation "x <~ c1 ; c2" := (rbind c1 (λ x, c2))
  (at level 100, c1 at next level, right associativity) : py_scope.
Local Open Scope py_scope.

(** Python indexing [l[k]] of a list, a tuple or a one-axis array: a
    negative index counts from the end, an index outside
    [-len(l) .. len(l)-1] raises IndexError. *)
Definition py_index {A} (l : list A) (k : Z) : result A :=
  let n := Z.of_nat (length l) in
  let i := if k <? 0 then k + n else k in
  if (0 <=? i) && (i <? n) then
    match l !! Z.to_nat i with
    | Some x => Ok x
    | None => Raise IndexError
    end
  else Raise IndexError.

(** Python item assignment [l[k] = x]. *)
Definition py_setitem {A} (l : list A) (k : Z) (x : A) : result (list A) :=
  let n := Z.of_nat (length l) in
  let i := if k <? 0 then k + n else k in
  if (0 <=? i) && (i <? n) then Ok (<[Z.to_nat i := x]> l)
  else Raise IndexError.

(** The position a Python index [k] denotes in a sequence of length [n]. *)
Definition py_pos (n : nat) (k : Z) : option nat :=
  let i := if k <? 0 then k + Z.of_nat n else k in
  if (0 <=? i) && (i <? Z.of_nat n) then Some (Z.to_nat i) else None.

(** [range(n)] and [range(start, stop, -1)]. *)
Definition range (n : Z) : list Z := seqZ 0 n.

Definition range_down (start stop : Z) : list Z :=
  (λ i : nat, start - Z.of_nat i) <$> seq 0 (Z.to_nat (start - stop)).

(** ["%d" % k] for an integer [k]. *)
Definition fmt_d (k : Z) : string := NilZero.string_of_int (Z.to_int k).

(** ** Integers stored in a float64 array

    Assigning an integer to an entry of a float64 array stores the nearest
    double, ties going to the even significand: integers up to 2^53 are
    stored as they are, larger ones keep their 53 leading bits. Array
    extents are machine integers, far inside the range of float64, so the
    conversion does not overflow. The stored double is integral and is
    kept by its value. *)
Definition float64_round (z : Z) : Z :=
  let e := Z.log2 z + 1 - 53 in
  if e <=? 0 then z
  else
    let q := Z.shiftr z e in
    let r := z - Z.shiftl q e in
    let half := Z.shiftl 1 (e - 1) in
    let q' := if (half <? r) || ((r =? half) && Z.odd q) then q + 1 else q in
    Z.shiftl q' e.

Definition float64_of_int (n : nat) : nat := Z.to_nat (float64_round (Z.of_nat n)).

(** ** numpy arrays *)

Record ndarray (elt : Type) : Type := mk_ndarray {
  shape : list nat;
  data : list elt          (* elements in row-major (C) order *)
}.
Arguments mk_ndarray {elt} shape data.
Arguments shape {elt} _.
Arguments data {elt} _.

Definition prod_list (l : list nat) : nat := foldr Nat.mul 1%nat l.

Section Arrays.
Context {elt : Type}.

Definition size (a : ndarray elt) : nat := prod_list (shape a).

Definition wf_ndarray (a : ndarray elt) : Prop := length (data a) = size a.

(** Row-major offset of a multi-index; [None] when the index has the
    wrong number of axes or is out of bounds on one of them. *)
Fixpoint ravel (shp idx : list nat) : option nat :=
  match shp, idx with
  | [], [] => Some 0%nat
  | n :: shp', i :: idx' =>
      if (i <? n)%nat
      then o ← ravel shp' idx'; Some (i * prod_list shp' + o)%nat
      else None
  | _, _ => None
  end.

(** A multi-index within the extents of a shape. *)
Definition in_bounds (idx shp : list nat) : Prop :=
  Forall2 (λ i n : nat, (i < n)%nat) idx shp.

(** [a[i0, i1, ...]] for non-negative indices. *)
Definition item (a : ndarray elt) (idx : list nat) : option elt :=
  o ← ravel (shape a) idx; data a !! o.

(** All multi-indices of a shape, in row-major order. *)
Fixpoint indices (shp : list nat) : list (list nat) :=
  match shp with
  | [] => [[]]
  | n :: shp' => i ← seq 0 n; (i ::.) <$> indices shp'
  end.

(** [np.reshape(a, newshape)] for a shape of non-negative extents: the
    same elements in the same row-major order; ValueError when the sizes
    differ. *)
Definition np_reshape (a : ndarray elt) (newshape : list nat)
  : result (ndarray elt) :=
  if (prod_list newshape =? size a)%nat
  then Ok (mk_ndarray newshape (data a))
  else Raise ValueError.

(** [a.transpose()]: the axes are reversed. *)
Definition transpose (a : ndarray elt) : ndarray elt :=
  mk_ndarray (reverse (shape a))
             (omap (λ idx, item a (reverse idx)) (indices (reverse (shape a)))).
End Arrays.

(** ** The class [BlockTTtensor] *)

(** What [GetRanks] returns: one entry of the rank vector (a float64, by
    its value), or the vector. *)
Inductive rank_answer : Type :=
| OneRank (r : nat)
| AllRanks (R : list nat).

Section BlockTT.
Context {elt : Type}.

(** pyemma readers, the state outside the program (the files under
    [tensordir] among it), and the two primitives of [Util]. *)
Variable reader : Type.
Variable world : Type.
Variable ApplyLinearTransform :
  reader → ndarray elt → string → world → reader * world.
Variable DoubleProducts :
  reader → reader → string → ndarray elt → world → reader * world.

(** The attributes of an instance. [R] is a numpy vector of float64; every
    entry is a zero of [np.zeros] or an integer stored by assignment, so it
    is an integral double, kept here by its value (see [float64_of_int]). *)
Record BlockTTtensor : Type := mk_BlockTTtensor {
  U : list (ndarray elt);
  basis : list reader;
  tensordir : string;
  d : Z;
  root : Z;
  M : nat;
  R : list nat;
  interfaces : list reader
}.

(** Computations that may raise and that act on the world. *)
Definition io (A : Type) : Type := world → result A * world.

Definition ret {A} (a : A) : io A := λ w, (Ok a, w).

Definition lift {A} (r : result A) : io A := λ w, (r, w).

Definition call {A} (f : world → A * world) : io A :=
  λ w, let '(a, w') := f w in (Ok a, w').

Definition bind {A B} (m : io A) (f : A → io B) : io B :=
  λ w, match m w with
       | (Ok a, w') => f a w'
       | (Raise e, w') => (Raise e, w')
       end.

Notation "x <<~ c1 ; c2" := (bind c1 (λ x, c2))
  (at level 100, c1 at next level, right associativity) : py_scope.

(** *** Queries *)

Definition GetRanks (self : BlockTTtensor) (k : option Z) : result rank_answer :=
  let k := default (-1) k in
  if (k >=? 0) || (k <=? d self - 2)
  then r <~ py_index (R self) k; Ok (OneRank r)
  else Ok (AllRanks (R self)).

Definition GetRankTriple (self : BlockTTtensor) (k : Z) : result (list nat) :=
  if k =? root self
  then Uk <~ py_index (U self) k; Ok (take 3 (shape Uk))
  else Uk <~ py_index (U self) k; Ok (shape Uk).

Definition ComponentBasis (self : BlockTTtensor) (k : Z) : result reader :=
  py_index (basis self) k.

Definition ComponentTensor (self : BlockTTtensor) (k order : Z)
  : result (ndarray elt) :=
  if (order =? 1) && negb (k =? root self) then
    dims <~ GetRankTriple self k;
    Uk <~ py_index (U self) k;
    d0 <~ py_index dims 0;
    d1 <~ py_index dims 1;
    d2 <~ py_index dims 2;
    np_reshape Uk [(d0 * d1)%nat; d2]
  else if (order =? 2) && negb (k =? root self) then
    dims <~ GetRankTriple self k;
    Uk <~ py_index (U self) k;
    d0 <~ py_index dims 0;
    d1 <~ py_index dims 1;
    d2 <~ py_index dims 2;
    np_reshape Uk [d0; (d1 * d2)%nat]
  else py_index (U self) k.

Definition SetComponentTensor (self : BlockTTtensor) (k : Z) (Unew : ndarray elt)
  : result BlockTTtensor :=
  U' <~ py_setitem (U self) k Unew;
  Ok (mk_BlockTTtensor U' (basis self) (tensordir self) (d self) (root self)
        (M self) (R self) (interfaces self)).

Definition GetInterface (self : BlockTTtensor) (k : Z) : result reader :=
  py_index (interfaces self) k.

Definition SetInterface (self : BlockTTtensor) (k : Z) (intf : reader)
  : result BlockTTtensor :=
  I' <~ py_setitem (interfaces self) k intf;
  Ok (mk_BlockTTtensor (U self) (basis self) (tensordir self) (d self)
        (root self) (M self) (R self) I').

(** *** The interface sweep *)

(** [self.tensordir+"Interface%d"%k] *)
Definition interface_path (self : BlockTTtensor) (k : Z) : string :=
  tensordir self +:+ "Interface" +:+ fmt_d k.

(** One iteration of the first loop of [ComputeInterfaces]. The local
    variable [Yk] is unbound until its first assignment. *)
Definition left_step (self : BlockTTtensor) (k : Z)
    (st : option reader * list reader) : io (option reader * list reader) :=
  let '(Yk, interface_list) := st in
  Uk <<~ lift (ComponentTensor self k 1);
  Fk <<~ lift (ComponentBasis self k);
  Yk' <<~ (if k =? 0
           then call (ApplyLinearTransform Fk Uk (interface_path self k))
           else match Yk with
                | Some Y => call (DoubleProducts Y Fk (interface_path self k) Uk)
                | None => lift (Raise UnboundLocalError)
                end);
  ret (Some Yk', interface_list ++ [Yk']).

(** One iteration of the second loop; [backward_list.insert(0,Yk)] puts
    the new reader in front. *)
Definition right_step (self : BlockTTtensor) (k : Z)
    (st : option reader * list reader) : io (option reader * list reader) :=
  let '(Yk, backward_list) := st in
  Uk <<~ lift (ComponentTensor self (k + 1) 2);
  Fk <<~ lift (ComponentBasis self (k + 1));
  Yk' <<~ (if k =? d self - 2
           then call (ApplyLinearTransform Fk (transpose Uk) (interface_path self k))
           else match Yk with
                | Some Y =>
                    call (DoubleProducts Fk Y (interface_path self k) (transpose Uk))
                | None => lift (Raise UnboundLocalError)
                end);
  ret (Some Yk', Yk' :: backward_list).

(** A [for] loop over the values [ks], with the loop body acting on the
    variables it assigns. *)
Fixpoint for_each {S : Type} (body : Z → S → io S) (ks : list Z) (st : S) : io S :=
  match ks with
  | [] => ret st
  | k :: ks' => st' <<~ body k st; for_each body ks' st'
  end.

Definition ComputeInterfaces (self : BlockTTtensor) : io (list reader) :=
  st <<~ for_each (left_step self) (range (root self)) (None, []);
  let '(Yk, interface_list) := st in
  st <<~ for_each (right_step self) (range_down (d self - 2) (root self - 1)) (Yk, []);
  let '(Yk, backward_list) := st in
  ret (interface_list ++ backward_list).

(** *** The constructor *)

(** [np.zeros(n)] for an integer [n]: a float64 vector of [n] entries 0.0,
    each kept by its value. *)
Definition np_zeros (n : Z) : result (list nat) :=
  if n <? 0 then Raise ValueError else Ok (replicate (Z.to_nat n) 0%nat).

(** [self.M = np.shape(self.U[0])[3]] *)
Definition read_M (U0 : list (ndarray elt)) : result nat :=
  U0k <~ py_index U0 0;
  py_index (shape U0k) 3.

(** [for k in range(self.d-1): self.R[k] = self.U[k].shape[2]]; the
    extent is stored in the float64 vector, that is, rounded to a double. *)
Fixpoint extract_ranks (U0 : list (ndarray elt)) (ks : list Z) (R0 : list nat)
  : result (list nat) :=
  match ks with
  | [] => Ok R0
  | k :: ks' =>
      Uk <~ py_index U0 k;
      r <~ py_index (shape Uk) 2;
      R1 <~ py_setitem R0 k (float64_of_int r);
      extract_ranks U0 ks' R1
  end.

(** [BlockTTtensor(U, basis, tensordir)]; [tensordir] is optional. The
    instance under construction has no attribute [interfaces] until the
    sweep has returned; the sweep does not read it. *)
Definition __init__ (U0 : list (ndarray elt)) (basis0 : list reader)
    (tensordir0 : option string) : io BlockTTtensor :=
  let tensordir1 := default "./"%string tensordir0 in
  let d1 := Z.of_nat (length U0) in
  let root1 := 0 in
  M1 <<~ lift (read_M U0);
  R0 <<~ lift (np_zeros (d1 - 1));
  R1 <<~ lift (extract_ranks U0 (range (d1 - 1)) R0);
  let self := mk_BlockTTtensor U0 basis0 tensordir1 d1 root1 M1 R1 [] in
  intf <<~ ComputeInterfaces self;
  ret (mk_BlockTTtensor U0 basis0 tensordir1 d1 root1 M1 R1 intf).

End BlockTT.

Arguments mk_BlockTTtensor {elt reader} U basis tensordir d root M R interfaces.
Arguments U {elt reader} _.
Arguments basis {elt reader} _.
Arguments tensordir {elt reader} _.
Arguments d {elt reader} _.
Arguments root {elt reader} _.
Arguments M {elt reader} _.
Arguments R {elt reader} _.
Arguments interfaces {elt reader} _.
Arguments GetRanks {elt reader} self k.
Arguments GetRankTriple {elt reader} self k.
Arguments ComponentBasis {elt reader} self k.
Arguments ComponentTensor {elt reader} self k order.
Arguments SetComponentTensor {elt reader} self k Unew.
Arguments GetInterface {elt reader} self k.
Arguments SetInterface {elt reader} self k intf.
Arguments interface_path {elt reader} self k.
Arguments io world A : clear implicits.
Arguments ret {world A} a.
Arguments lift {world A} r.
Arguments call {world A} f.
Arguments bind {world A B} m f.
Arguments for_each {world S} body ks st.
Arguments left_step {elt reader world} ApplyLinearTransform DoubleProducts self k st.
Arguments right_step {elt reader world} ApplyLinearTransform DoubleProducts self k st.
Arguments ComputeInterfaces {elt reader world} ApplyLinearTransform DoubleProducts self.
Arguments read_M {elt} U0.
Arguments extract_ranks {elt} U0 ks R0.
Arguments __init__ {elt reader world} ApplyLinearTransform DoubleProducts U0 basis0 tensordir0.

(** ** A recording instance of the primitives

    Readers are the terms built by the primitives over the basis readers,
    and the world is the list of cache paths written so far, oldest first.
    Used to run the class on concrete inputs. *)
Module Trace.

Inductive reader : Type :=
| Source (k : nat)
| Linear (F : reader) (A : ndarray Z) (path : string)
| Double (A B : reader) (path : string) (C : ndarray Z).

Definition world : Type := list string.

Definition ApplyLinearTransform (F : reader) (A : ndarray Z) (path : string)
    (w : world) : reader * world :=
  (Linear F A path, w ++ [path]).

Definition DoubleProducts (A B : reader) (path : string) (C : ndarray Z)
    (w : world) : reader * world :=
  (Double A B path C, w ++ [path]).

(** [np.arange(size).reshape(shape)] *)
Definition arange (shp : list nat) : ndarray Z :=
  mk_ndarray shp (seqZ 0 (Z.of_nat (prod_list shp))).

Definition construct (U0 : list (ndarray Z)) (basis0 : list reader)
    (tensordir0 : option string) : io world (BlockTTtensor (elt:=Z) reader) :=
  __init__ ApplyLinearTransform DoubleProducts U0 basis0 tensordir0.

Definition sweep (self : BlockTTtensor (elt:=Z) reader) : io world (list reader) :=
  ComputeInterfaces ApplyLinearTransform DoubleProducts self.

(** Four coordinates, ranks 2, 3, 2, three stacked functions. *)
Definition chain4 : list (ndarray Z) :=
  [arange [1; 2; 2; 3]%nat; arange [2; 2; 3]%nat; arange [3; 2; 2]%nat;
   arange [2; 2; 1]%nat].

Definition basis4 : list reader := [Source 0; Source 1; Source 2; Source 3].

(** The same chain with the stacked functions on coordinate 2, and the
    root there. *)
Definition rooted2 : BlockTTtensor (elt:=Z) reader :=
  mk_BlockTTtensor
    [arange [1; 2; 2]%nat; arange [2; 2; 3]%nat; arange [3; 2; 2; 3]%nat;
     arange [2; 2; 1]%nat]
    basis4 "./" 4 2 3 [2; 3; 2]%nat [].

(** Two coordinates whose ranks do not match: component 0 has right rank
    2, component 1 has left rank 3. *)
Definition mismatched : list (ndarray Z) :=
  [arange [1; 5; 2; 4]%nat; arange [3; 7; 1]%nat].

Definition basis2 : list reader := [Source 0; Source 1].

(** A first component without the axis of the stacked functions. *)
Definition three_axes_first : list (ndarray Z) :=
  [arange [1; 2; 2]%nat; arange [2; 2; 1]%nat].

(** The chain of four coordinates as an instance with root 0 and three
    readers in its interface list. *)
Definition cached4 : BlockTTtensor (elt:=Z) reader :=
  mk_BlockTTtensor chain4 basis4 "./" 4 0 3 [2; 3; 2]%nat
    [Source 10; Source 11; Source 12].

(** An instance whose second component has a fourth axis of extent 2 and
    whose third has a single axis. *)
Definition odd_shapes : BlockTTtensor (elt:=Z) reader :=
  mk_BlockTTtensor
    [arange [1; 2; 2; 3]%nat; arange [2; 2; 3; 2]%nat; arange [2]%nat]
    basis4 "./" 3 0 3 [2; 3]%nat [].

End Trace.

(** ** Conditions under which the sweep runs to its end

    The dimension is the number of components, the root is one of the
    coordinates, there is a basis source for every component, and every
    component other than the root has three axes. *)
Definition sweep_ready {elt reader : Type}
    (self : BlockTTtensor (elt:=elt) reader) : Prop :=
  d self = Z.of_nat (length (U self))
  ∧ 0 ≤ root self ≤ d self - 1
  ∧ (length (U self) ≤ length (basis self))%nat
  ∧ ∀ (k : nat) (Uk : ndarray elt),
      U self !! k = Some Uk → Z.of_nat k ≠ root self → length (shape Uk) = 3%nat.

(** ** What one step of the sweep produces

    [ws i] is the world before the [i]-th call of a primitive (counted from
    0 over both loops) and [l] the list of readers the sweep returns. *)
Section SweepSteps.
Context {elt reader world : Type}.
Variable ApplyLinearTransform :
  reader → ndarray elt → string → world → reader * world.
Variable DoubleProducts :
  reader → reader → string → ndarray elt → world → reader * world.
Variable self : BlockTTtensor (elt:=elt) reader.

(** Step [k] of the first loop is call number [k]. *)
Definition left_produces (l : list reader) (ws : nat → world) (k : nat) : Prop :=
  ∃ Uk Fk Yk,
    ComponentTensor self (Z.of_nat k) 1 = Ok Uk
    ∧ ComponentBasis self (Z.of_nat k) = Ok Fk
    ∧ l !! k = Some Yk
    ∧ match k with
      | O => ApplyLinearTransform Fk Uk (interface_path self 0) (ws 0%nat)
             = (Yk, ws 1%nat)
      | S k' => ∃ Yprev,
          l !! k' = Some Yprev
          ∧ DoubleProducts Yprev Fk (interface_path self (Z.of_nat k)) Uk (ws k)
            = (Yk, ws (S k))
      end.

(** The step of the second loop for bond [k] is call number
    [first + (length l - 1 - k)], where [first] calls were made before the
    second loop began. *)
Definition right_produces (first : nat) (l : list reader) (ws : nat → world)
    (k : nat) : Prop :=
  let i := (first + (length l - 1 - k))%nat in
  ∃ Uk Fk Yk,
    ComponentTensor self (Z.of_nat k + 1) 2 = Ok Uk
    ∧ ComponentBasis self (Z.of_nat k + 1) = Ok Fk
    ∧ l !! k = Some Yk
    ∧ if decide (S k = length l)
      then ApplyLinearTransform Fk (transpose Uk)
             (interface_path self (Z.of_nat k)) (ws i) = (Yk, ws (S i))
      else ∃ Yprev,
          l !! S k = Some Yprev
          ∧ DoubleProducts Fk Yprev (interface_path self (Z.of_nat k))
              (transpose Uk) (ws i) = (Yk, ws (S i)).
End SweepSteps.

(** ** Indexing, ranges and unfoldings *)

Example transpose_2x3 :
  transpose (mk_ndarray [2; 3]%nat [1; 2; 3; 4; 5; 6])
  = mk_ndarray [3; 2]%nat [1; 4; 2; 5; 3; 6].
Proof. reflexivity. Qed.

Example fmt_d_12 : fmt_d 12 = "12"%string ∧ fmt_d 0 = "0"%string ∧ fmt_d (-3) = "-3"%string.
Proof. repeat split; reflexivity. Qed.

Example float64_round_ex :
  float64_round 7 = 7
  ∧ float64_round (2 ^ 53) = 2 ^ 53
  ∧ float64_round (2 ^ 53 + 1) = 2 ^ 53
  ∧ float64_round (2 ^ 53 + 3) = 2 ^ 53 + 4
  ∧ float64_round (2 ^ 63 - 1) = 2 ^ 63.
Proof. repeat split; vm_compute; reflexivity. Qed.

Example range_down_ex : range_down 2 (-1) = [2; 1; 0] ∧ range 3 = [0; 1; 2] ∧ range_down (-1) (-1) = [].
Proof. repeat split; reflexivity. Qed.


Lemma py_index_lookup {A} (l : list A) (k : nat) (x : A) :
  l !! k = Some x → py_index l (Z.of_nat k) = Ok x.
Proof.
  intros Hk. pose proof (lookup_lt_Some _ _ _ Hk) as Hlt.
  unfold py_index.
  destruct (Z.ltb_spec (Z.of_nat k) 0) as [?|_]; [lia|].
  destruct (Z.leb_spec 0 (Z.of_nat k)) as [_|?]; [|lia].
  destruct (Z.ltb_spec (Z.of_nat k) (Z.of_nat (length l))) as [_|?]; [|lia].
  simpl. by rewrite Nat2Z.id, Hk.
Qed.

Lemma py_index_last {A} (l : list A) (x : A) :
  py_index (l ++ [x]) (-1) = Ok x.
Proof.
  unfold py_index. rewrite length_app. simpl length.
  replace (-1 <? 0) with true by reflexivity.
  destruct (Z.leb_spec 0 (-1 + Z.of_nat (length l + 1))) as [_|?]; [|lia].
  destruct (Z.ltb_spec (-1 + Z.of_nat (length l + 1)) (Z.of_nat (length l + 1)))
    as [_|?]; [|lia].
  simpl. replace (Z.to_nat (-1 + Z.of_nat (length l + 1))) with (length l) by lia.
  by rewrite list_lookup_middle.
Qed.

Lemma py_index_nil {A} (k : Z) : py_index (@nil A) k = Raise IndexError.
Proof.
  unfold py_index. simpl length.
  destruct (k <? 0) eqn:E; [apply Z.ltb_lt in E|apply Z.ltb_ge in E].
  - destruct (Z.leb_spec 0 (k + Z.of_nat 0)); [lia|done].
  - destruct (Z.leb_spec 0 k); [|done].
    destruct (Z.ltb_spec k (Z.of_nat 0)); [lia|done].
Qed.

Lemma py_setitem_lookup {A} (l : list A) (k : nat) (x : A) :
  (k < length l)%nat → py_setitem l (Z.of_nat k) x = Ok (<[k := x]> l).
Proof.
  intros Hlt. unfold py_setitem.
  destruct (Z.ltb_spec (Z.of_nat k) 0) as [?|_]; [lia|].
  destruct (Z.leb_spec 0 (Z.of_nat k)) as [_|?]; [|lia].
  destruct (Z.ltb_spec (Z.of_nat k) (Z.of_nat (length l))) as [_|?]; [|lia].
  simpl. by rewrite Nat2Z.id.
Qed.

Lemma range_S (n : nat) : range (Z.of_nat (S n)) = range (Z.of_nat n) ++ [Z.of_nat n].
Proof. unfold range. rewrite seqZ_S. by rewrite Z.add_0_l. Qed.

Lemma range_down_S (start : Z) (m : nat) :
  range_down start (start - Z.of_nat (S m))
  = range_down start (start - Z.of_nat m) ++ [start - Z.of_nat m].
Proof.
  unfold range_down.
  replace (Z.to_nat (start - (start - Z.of_nat (S m)))) with (S m) by lia.
  replace (Z.to_nat (start - (start - Z.of_nat m))) with m by lia.
  by rewrite seq_S, fmap_app.
Qed.

Lemma range_down_nil (start stop : Z) : start ≤ stop → range_down start stop = [].
Proof.
  intros H. unfold range_down. by replace (Z.to_nat (start - stop)) with 0%nat by lia.
Qed.

Lemma range_down_cons (start stop : Z) :
  stop < start → range_down start stop = start :: range_down (start - 1) stop.
Proof.
  intros H. unfold range_down.
  replace (Z.to_nat (start - stop)) with (S (Z.to_nat (start - 1 - stop))) by lia.
  simpl seq. rewrite fmap_cons, <- fmap_S_seq, <- list_fmap_compose.
  f_equal; [simpl; lia|]. apply list_fmap_ext. intros _ i _. simpl. lia.
Qed.

Lemma elem_of_range (n k : Z) : k ∈ range n ↔ 0 ≤ k < n.
Proof. unfold range. rewrite elem_of_seqZ. lia. Qed.

Lemma elem_of_range_down (start stop k : Z) :
  k ∈ range_down start stop ↔ stop < k ≤ start.
Proof.
  unfold range_down. rewrite list_elem_of_fmap. split.
  - intros (i & -> & Hi). apply elem_of_seq in Hi. lia.
  - intros Hk. exists (Z.to_nat (start - k)). split; [lia|].
    apply elem_of_seq. lia.
Qed.

Lemma NoDup_range_down (start stop : Z) : NoDup (range_down start stop).
Proof.
  unfold range_down. apply NoDup_fmap_2; [|apply NoDup_seq].
  intros i j Hij. lia.
Qed.

(** The decimal rendering of an index determines the index. *)
Lemma fmt_d_inj (j k : Z) : fmt_d j = fmt_d k → j = k.
Proof.
  unfold fmt_d. intros H.
  assert (Hnn : ∀ z, Z.to_int z ≠ Decimal.Pos Decimal.Nil
                     ∧ Z.to_int z ≠ Decimal.Neg Decimal.Nil).
  { intros [|p|p]; simpl; split; try discriminate;
      intros [= E]; by apply (DecimalPos.Unsigned.to_uint_nonnil p). }
  assert (E : Some (Z.to_int j) = Some (Z.to_int k)).
  { rewrite <- (NilZero.isi (Z.to_int j)), <- (NilZero.isi (Z.to_int k));
      [by rewrite H|apply Hnn..]. }
  injection E as E.
  by rewrite <- (DecimalZ.of_to j), <- (DecimalZ.of_to k), E.
Qed.

Section ArrayFacts.
Context {elt : Type}.
Implicit Types (Uk : ndarray elt) (a b c : nat).

Lemma reshape_left Uk a b c :
  shape Uk = [a; b; c] →
  np_reshape Uk [(a * b)%nat; c] = Ok (mk_ndarray [(a * b)%nat; c] (data Uk)).
Proof.
  intros Hs. unfold np_reshape, size. rewrite Hs. simpl.
  replace (a * b * (c * 1) =? a * (b * (c * 1)))%nat with true; [done|].
  symmetry. apply Nat.eqb_eq. lia.
Qed.

Lemma reshape_right Uk a b c :
  shape Uk = [a; b; c] →
  np_reshape Uk [a; (b * c)%nat] = Ok (mk_ndarray [a; (b * c)%nat] (data Uk)).
Proof.
  intros Hs. unfold np_reshape, size. rewrite Hs. simpl.
  replace (a * (b * c * 1) =? a * (b * (c * 1)))%nat with true; [done|].
  symmetry. apply Nat.eqb_eq. lia.
Qed.

(** Entry [(i,j,l)] of a three-axis array is entry [(i*b+j, l)] of its
    left unfolding and entry [(i, j*c+l)] of its right unfolding. *)
Lemma item_unfold_left Uk a b c (i j l : nat) :
  shape Uk = [a; b; c] → (i < a)%nat → (j < b)%nat → (l < c)%nat →
  item (mk_ndarray [(a * b)%nat; c] (data Uk)) [(i * b + j)%nat; l]
  = item Uk [i; j; l].
Proof.
  intros Hs Hi Hj Hl. unfold item. rewrite Hs. simpl.
  destruct (Nat.ltb_spec (i * b + j) (a * b)) as [_|?]; [|nia].
  destruct (Nat.ltb_spec i a) as [_|?]; [|lia].
  destruct (Nat.ltb_spec j b) as [_|?]; [|lia].
  destruct (Nat.ltb_spec l c) as [_|?]; [|lia].
  simpl. f_equal. lia.
Qed.

Lemma item_unfold_right Uk a b c (i j l : nat) :
  shape Uk = [a; b; c] → (i < a)%nat → (j < b)%nat → (l < c)%nat →
  item (mk_ndarray [a; (b * c)%nat] (data Uk)) [i; (j * c + l)%nat]
  = item Uk [i; j; l].
Proof.
  intros Hs Hi Hj Hl. unfold item. rewrite Hs. simpl.
  destruct (Nat.ltb_spec (j * c + l) (b * c)) as [_|?]; [|nia].
  destruct (Nat.ltb_spec i a) as [_|?]; [|lia].
  destruct (Nat.ltb_spec j b) as [_|?]; [|lia].
  destruct (Nat.ltb_spec l c) as [_|?]; [|lia].
  simpl. f_equal. lia.
Qed.
(** *** Transposition *)

Lemma length_bind_blocks {A} (f : nat → list A) (m s n : nat) :
  (∀ j, length (f j) = m) → length (seq s n ≫= f) = (n * m)%nat.
Proof.
  intros Hlen. revert s. induction n as [|n IH]; intros s; [done|].
  simpl seq. rewrite bind_cons, length_app, Hlen, IH. done.
Qed.

Lemma length_indices (shp : list nat) : length (indices shp) = prod_list shp.
Proof.
  induction shp as [|n shp IH]; [done|]. simpl indices.
  rewrite (length_bind_blocks _ (prod_list shp)); [done|].
  intros j. by rewrite length_fmap.
Qed.

Lemma ravel_in_bounds (shp idx : list nat) (o : nat) :
  ravel shp idx = Some o → in_bounds idx shp ∧ (o < prod_list shp)%nat.
Proof.
  revert idx o. induction shp as [|n shp IH]; intros [|i idx] o Ho; simpl in Ho;
    try discriminate.
  - injection Ho as <-. split; [constructor|simpl; lia].
  - destruct (Nat.ltb_spec i n) as [Hi|]; [|discriminate].
    destruct (ravel shp idx) as [o'|] eqn:Ho'; [|discriminate].
    simpl in Ho. injection Ho as <-.
    destruct (IH idx o' Ho') as [Hb Hlt].
    split; [by constructor|]. simpl. nia.
Qed.

Lemma in_bounds_ravel (shp idx : list nat) :
  in_bounds idx shp → is_Some (ravel shp idx).
Proof.
  intros Hb. induction Hb as [|i n idx shp Hi Hb [o Ho]]; simpl; [done|].
  destruct (Nat.ltb_spec i n) as [_|?]; [|lia]. rewrite Ho. done.
Qed.

Lemma lookup_bind_blocks {A} (f : nat → list A) (m s n j i : nat) :
  (∀ j, length (f j) = m) → (j < n)%nat → (i < m)%nat →
  (seq s n ≫= f) !! (j * m + i)%nat = f (s + j)%nat !! i.
Proof.
  intros Hlen. revert s j. induction n as [|n IH]; intros s j Hj Hi; [lia|].
  simpl seq. rewrite bind_cons. destruct j as [|j].
  - rewrite lookup_app_l by (rewrite Hlen; lia). by rewrite Nat.add_0_r.
  - rewrite lookup_app_r by (rewrite Hlen; lia). rewrite Hlen.
    replace (S j * m + i - m)%nat with (j * m + i)%nat by lia.
    rewrite IH by lia. by replace (S s + j)%nat with (s + S j)%nat by lia.
Qed.

(** [indices] lists the multi-indices at their row-major offsets. *)
Lemma lookup_indices (shp idx : list nat) (o : nat) :
  ravel shp idx = Some o → indices shp !! o = Some idx.
Proof.
  revert idx o. induction shp as [|n shp IH]; intros [|i idx] o Ho; simpl in Ho;
    try discriminate.
  - by injection Ho as <-.
  - destruct (Nat.ltb_spec i n) as [Hi|]; [|discriminate].
    destruct (ravel shp idx) as [o'|] eqn:Ho'; [|discriminate].
    simpl in Ho. injection Ho as <-.
    destruct (ravel_in_bounds _ _ _ Ho') as [_ Hlt].
    simpl indices.
    rewrite (lookup_bind_blocks _ (prod_list shp)); [|intros j|done|done].
    + by rewrite list_lookup_fmap, (IH idx o' Ho').
    + by rewrite length_fmap, length_indices.
Qed.

Lemma indices_in_bounds (shp idx : list nat) :
  idx ∈ indices shp → in_bounds idx shp.
Proof.
  revert idx. induction shp as [|n shp IH]; intros idx Hin; simpl in Hin.
  - apply list_elem_of_singleton in Hin as ->. constructor.
  - apply list_elem_of_bind in Hin as (i & Hin & Hi).
    apply list_elem_of_fmap in Hin as (idx' & -> & Hin).
    apply elem_of_seq in Hi. constructor; [lia|by apply IH].
Qed.

Lemma lookup_omap_total {A B} (g : A → option B) (l : list A) (o : nat) :
  (∀ x, x ∈ l → is_Some (g x)) → omap g l !! o = l !! o ≫= g.
Proof.
  revert o. induction l as [|x l IH]; intros o Hg; [done|].
  destruct (Hg x) as [y Hy]; [by left|]. simpl. rewrite Hy.
  destruct o as [|o]; simpl; [done|]. apply IH. intros x' Hx'. apply Hg. by right.
Qed.

(** Entry [idx] of the transpose is entry [reverse idx] of the array. *)
Lemma item_transpose (a : ndarray elt) (idx : list nat) :
  wf_ndarray a → in_bounds idx (reverse (shape a)) →
  item (transpose a) idx = item a (reverse idx).
Proof.
  intros Hwf Hb. destruct (in_bounds_ravel _ _ Hb) as [o Ho].
  unfold item at 1. simpl. rewrite Ho. simpl.
  rewrite lookup_omap_total.
  - by rewrite (lookup_indices _ _ _ Ho).
  - intros x Hx. apply indices_in_bounds in Hx.
    apply Forall2_reverse in Hx. rewrite reverse_involutive in Hx.
    destruct (in_bounds_ravel _ _ Hx) as [o' Ho'].
    unfold item. rewrite Ho'. simpl.
    apply lookup_lt_is_Some_2. rewrite Hwf.
    by destruct (ravel_in_bounds _ _ _ Ho').
Qed.

Lemma wf_transpose (a : ndarray elt) : wf_ndarray a → wf_ndarray (transpose a).
Proof.
  intros Hwf. unfold wf_ndarray, size. simpl.
  rewrite <- length_indices.
  assert (H : ∀ l : list (list nat),
             (∀ x, x ∈ l → is_Some (item a (reverse x))) →
             length (omap (λ idx, item a (reverse idx)) l) = length l).
  { induction l as [|x l IH]; intros Hl; [done|]. simpl.
    destruct (Hl x) as [y Hy]; [by left|]. rewrite Hy. simpl.
    f_equal. apply IH. intros x' Hx'. apply Hl. by right. }
  apply H. intros x Hx. apply indices_in_bounds in Hx.
  apply Forall2_reverse in Hx. rewrite reverse_involutive in Hx.
  destruct (in_bounds_ravel _ _ Hx) as [o' Ho'].
  unfold item. rewrite Ho'. simpl.
  apply lookup_lt_is_Some_2. rewrite Hwf.
  by destruct (ravel_in_bounds _ _ _ Ho').
Qed.

End ArrayFacts.

(** ** Accessors of the class *)

Section Accessors.
Context {elt reader : Type}.
Implicit Types (self : BlockTTtensor (elt:=elt) reader) (Uk : ndarray elt).

Lemma ComponentTensor_left self (k : nat) Uk (a b c : nat) :
  U self !! k = Some Uk → Z.of_nat k ≠ root self → shape Uk = [a; b; c] →
  ComponentTensor self (Z.of_nat k) 1
  = Ok (mk_ndarray [(a * b)%nat; c] (data Uk)).
Proof.
  intros Hk Hroot Hs. unfold ComponentTensor, GetRankTriple.
  destruct (Z.eqb_spec (Z.of_nat k) (root self)) as [?|_]; [done|].
  simpl. rewrite (py_index_lookup _ _ _ Hk). simpl. rewrite Hs. simpl.
  by apply reshape_left.
Qed.

Lemma ComponentTensor_right self (k : nat) Uk (a b c : nat) :
  U self !! k = Some Uk → Z.of_nat k ≠ root self → shape Uk = [a; b; c] →
  ComponentTensor self (Z.of_nat k) 2
  = Ok (mk_ndarray [a; (b * c)%nat] (data Uk)).
Proof.
  intros Hk Hroot Hs. unfold ComponentTensor, GetRankTriple.
  destruct (Z.eqb_spec (Z.of_nat k) (root self)) as [?|_]; [done|].
  simpl. rewrite (py_index_lookup _ _ _ Hk). simpl. rewrite Hs. simpl.
  by apply reshape_right.
Qed.

Lemma ComponentTensor_root self (k : nat) Uk (order : Z) :
  U self !! k = Some Uk → Z.of_nat k = root self →
  ComponentTensor self (Z.of_nat k) order = Ok Uk.
Proof.
  intros Hk Hroot. unfold ComponentTensor.
  destruct (Z.eqb_spec (Z.of_nat k) (root self)) as [_|?]; [|done].
  rewrite !andb_false_r. by apply py_index_lookup.
Qed.

Lemma three_axes Uk :
  length (shape Uk) = 3%nat → ∃ a b c : nat, shape Uk = [a; b; c].
Proof.
  destruct (shape Uk) as [|a [|b [|c [|? ?]]]]; try discriminate. eauto.
Qed.

(** C6. The unfoldings of [ComponentTensor]: at a coordinate [k] other
    than the root whose component has shape (a,b,c), order 1 returns the
    component reshaped to (a*b, c) and order 2 returns it reshaped to
    (a, b*c), each holding entry (i,j,l) of the component at the grouped
    index; at the root the stored array is returned whatever the order. *)
Theorem ComponentTensor_unfolding self (k : nat) Uk :
  U self !! k = Some Uk →
  (Z.of_nat k ≠ root self → ∀ a b c : nat, shape Uk = [a; b; c] →
     ∃ L Rt,
       ComponentTensor self (Z.of_nat k) 1 = Ok L ∧ shape L = [(a * b)%nat; c] ∧
       ComponentTensor self (Z.of_nat k) 2 = Ok Rt ∧ shape Rt = [a; (b * c)%nat] ∧
       data L = data Uk ∧ data Rt = data Uk ∧
       ∀ i j l : nat, (i < a)%nat → (j < b)%nat → (l < c)%nat →
         item L [(i * b + j)%nat; l] = item Uk [i; j; l] ∧
         item Rt [i; (j * c + l)%nat] = item Uk [i; j; l])
  ∧ (Z.of_nat k = root self →
     ∀ order : Z, ComponentTensor self (Z.of_nat k) order = Ok Uk).
Proof.
  intros Hk. split.
  - intros Hroot a b c Hs.
    exists (mk_ndarray [(a * b)%nat; c] (data Uk)),
           (mk_ndarray [a; (b * c)%nat] (data Uk)).
    split; [by apply ComponentTensor_left|].
    split; [done|].
    split; [by apply ComponentTensor_right|].
    repeat (split; [done|]).
    intros i j l Hi Hj Hl. split.
    + by apply item_unfold_left.
    + by apply item_unfold_right.
  - intros Hroot order. by apply ComponentTensor_root.
Qed.

(** C7. [SetComponentTensor(k, U')] at a coordinate [k] stores [U'] at
    index [k] of the component list and changes nothing else: the other
    components, the rank vector, the root, the basis sources, the cached
    interfaces, the dimension, the function count and the cache directory
    are those of the instance before the call. *)
Theorem SetComponentTensor_frame self (k : nat) (Unew : ndarray elt) :
  (k < length (U self))%nat →
  ∃ self',
    SetComponentTensor self (Z.of_nat k) Unew = Ok self' ∧
    U self' !! k = Some Unew ∧
    (∀ j : nat, j ≠ k → U self' !! j = U self !! j) ∧
    length (U self') = length (U self) ∧
    R self' = R self ∧ root self' = root self ∧ basis self' = basis self ∧
    interfaces self' = interfaces self ∧
    d self' = d self ∧ M self' = M self ∧ tensordir self' = tensordir self.
Proof.
  intros Hk. unfold SetComponentTensor.
  rewrite (py_setitem_lookup _ _ _ Hk). simpl.
  eexists. split; [reflexivity|]. simpl.
  split; [by apply list_lookup_insert_eq|].
  split; [intros j Hj; by apply list_lookup_insert_ne|].
  split; [apply length_insert|]. done.
Qed.

(** C5 (the code at the call without argument). [GetRanks()] on an
    instance of dimension at least 1 takes the branch of the single rank
    with the default index -1: it returns the last entry of the rank
    vector (or raises IndexError when the vector is empty), never the
    vector. With an index [k >= 0] it returns entry [k]. *)
Theorem GetRanks_default_is_last_entry self :
  1 ≤ d self →
  GetRanks self None = (r <~ py_index (R self) (-1); Ok (OneRank r))
  ∧ GetRanks self None ≠ Ok (AllRanks (R self))
  ∧ ∀ k : Z, 0 ≤ k →
      GetRanks self (Some k) = (r <~ py_index (R self) k; Ok (OneRank r)).
Proof.
  intros Hd.
  assert (E : GetRanks self None = (r <~ py_index (R self) (-1); Ok (OneRank r))).
  { unfold GetRanks. simpl.
    destruct (Z.leb_spec (-1) (d self - 2)) as [_|?]; [done|lia]. }
  split; [done|]. split.
  - rewrite E. by destruct (py_index (R self) (-1)).
  - intros k Hk. unfold GetRanks. simpl.
    destruct (Z.geb_spec k 0) as [_|?]; [done|lia].
Qed.

End Accessors.

(** ** The interface sweep *)

Section Sweep.
Context {elt reader world : Type}.
Variable ApplyLinearTransform :
  reader → ndarray elt → string → world → reader * world.
Variable DoubleProducts :
  reader → reader → string → ndarray elt → world → reader * world.
Implicit Types (self : BlockTTtensor (elt:=elt) reader) (w : world)
  (l : list reader) (ws : nat → world).

Local Abbreviation left_step := (left_step ApplyLinearTransform DoubleProducts).
Local Abbreviation right_step := (right_step ApplyLinearTransform DoubleProducts).
Local Abbreviation ComputeInterfaces :=
  (ComputeInterfaces ApplyLinearTransform DoubleProducts).
Local Abbreviation left_produces :=
  (left_produces ApplyLinearTransform DoubleProducts).
Local Abbreviation right_produces :=
  (right_produces ApplyLinearTransform DoubleProducts).

Lemma for_each_cons {S : Type} (body : Z → S → io world S) k ks st w :
  for_each body (k :: ks) st w
  = match body k st w with
    | (Ok st', w') => for_each body ks st' w'
    | (Raise e, w') => (Raise e, w')
    end.
Proof. reflexivity. Qed.

Lemma for_each_snoc {S : Type} (body : Z → S → io world S) ks k st w :
  for_each body (ks ++ [k]) st w
  = match for_each body ks st w with
    | (Ok st', w') => body k st' w'
    | (Raise e, w') => (Raise e, w')
    end.
Proof.
  revert st w. induction ks as [|k0 ks IH]; intros st w; simpl.
  - unfold bind, ret. by destruct (body k st w) as [[?|?] ?].
  - unfold bind. destruct (body k0 st w) as [[st'|e] w']; [apply IH|done].
Qed.

(** Steps already taken are not affected by later ones. *)
Lemma left_produces_mono self l l' ws ws' k :
  (k < length l)%nat → (∀ i : nat, (i ≤ length l)%nat → ws' i = ws i) →
  left_produces self l ws k → left_produces self (l ++ l') ws' k.
Proof.
  intros Hk Hws (Uk & Fk & Yk & HU & HF & HY & Hcall).
  exists Uk, Fk, Yk. repeat (split; [done|]).
  split; [by apply lookup_app_l_Some|].
  destruct k as [|k'].
  - rewrite !Hws by lia. done.
  - destruct Hcall as (Yprev & Hprev & Hcall). exists Yprev.
    split; [by apply lookup_app_l_Some|]. rewrite !Hws by lia. done.
Qed.

Lemma left_loop self w (n : nat) :
  (∀ k : nat, (k < n)%nat →
     ∃ Uk Fk, ComponentTensor self (Z.of_nat k) 1 = Ok Uk
              ∧ ComponentBasis self (Z.of_nat k) = Ok Fk) →
  ∃ l ws,
    for_each (left_step self) (range (Z.of_nat n)) (None, []) w
    = (Ok (last l, l), ws n)
    ∧ length l = n ∧ ws 0%nat = w
    ∧ ∀ k : nat, (k < n)%nat → left_produces self l ws k.
Proof.
  induction n as [|n IH]; intros Hready.
  - exists [], (λ _, w). do 3 (split; [done|]). intros k Hk. lia.
  - destruct IH as (l & ws & Hrun & Hlen & Hw0 & Hsteps).
    { intros k Hk. apply Hready. lia. }
    destruct (Hready n) as (Uk & Fk & HU & HF); [lia|].
    rewrite range_S, for_each_snoc, Hrun.
    unfold left_step, bind, lift, ret, call. rewrite HU, HF.
    destruct n as [|n'].
    + destruct l; [|done]. change (Z.of_nat 0) with 0 in *. simpl.
      destruct (ApplyLinearTransform Fk Uk (interface_path self 0) (ws 0%nat))
        as [Y w'] eqn:Hcall.
      exists [Y], (λ i, if decide (i = 1%nat) then w' else ws i).
      do 3 (split; [done|]).
      intros k Hk. assert (k = 0%nat) as -> by lia.
      exists Uk, Fk, Y. repeat (split; [done|]). simpl. done.
    + replace (Z.of_nat (S n') =? 0) with false by (symmetry; apply Z.eqb_neq; lia).
      destruct (l !! n') as [Yprev|] eqn:Hprev;
        [|apply lookup_ge_None in Hprev; lia].
      assert (last l = Some Yprev) as ->.
      { rewrite last_lookup, Hlen. done. }
      destruct (DoubleProducts Yprev Fk (interface_path self (Z.of_nat (S n')))
                  Uk (ws (S n'))) as [Y w'] eqn:Hcall.
      exists (l ++ [Y]), (λ i, if decide (i = S (S n')) then w' else ws i).
      split; [by rewrite last_snoc, decide_True|].
      split; [rewrite length_app; simpl; lia|].
      split; [done|].
      intros k Hk. destruct (decide (k = S n')) as [->|Hne].
      * exists Uk, Fk, Y. repeat (split; [done|]).
        split; [rewrite <- Hlen; apply list_lookup_middle; done|].
        exists Yprev. split; [by apply lookup_app_l_Some|].
        rewrite decide_False by lia. rewrite decide_True by done. done.
      * apply (left_produces_mono self l [Y] ws); [lia| |apply Hsteps; lia].
        intros i Hi. rewrite decide_False by lia. done.
Qed.

Lemma right_produces_shift self first first' l ws ws' k :
  (∀ j : nat, (j ≤ S (length l - 1 - k))%nat → ws' (first' + j)%nat = ws (first + j)%nat) →
  right_produces self first l ws k → right_produces self first' l ws' k.
Proof.
  intros Hws (Uk & Fk & Yk & HU & HF & HY & Hcall).
  exists Uk, Fk, Yk. repeat (split; [done|]).
  rewrite <- !Nat.add_succ_r, !Hws by lia.
  rewrite <- !Nat.add_succ_r in Hcall. done.
Qed.

Lemma right_loop self w (Y0 : option reader) (D n : nat) :
  d self - 1 = Z.of_nat D → (n ≤ D)%nat →
  (∀ k : nat, (D - n ≤ k < D)%nat →
     ∃ Uk Fk, ComponentTensor self (Z.of_nat k + 1) 2 = Ok Uk
              ∧ ComponentBasis self (Z.of_nat k + 1) = Ok Fk) →
  ∃ back ws,
    for_each (right_step self)
      (range_down (d self - 2) (d self - 2 - Z.of_nat n)) (Y0, []) w
    = (Ok (match back with [] => Y0 | Y :: _ => Some Y end, back), ws n)
    ∧ length back = n ∧ ws 0%nat = w
    ∧ ∀ (pre : list reader) (k : nat),
        (length pre + n = D)%nat → (length pre ≤ k < D)%nat →
        right_produces self 0 (pre ++ back) ws k.
Proof.
  intros HD. induction n as [|n IH]; intros Hn Hready.
  - exists [], (λ _, w). split.
    { by rewrite range_down_nil by lia. }
    do 2 (split; [done|]). intros pre k Hpre Hk. lia.
  - destruct IH as (back & ws & Hrun & Hlen & Hw0 & Hsteps); [lia| |].
    { intros k Hk. apply Hready. lia. }
    destruct (Hready (D - 1 - n)%nat) as (Uk & Fk & HU & HF); [lia|].
    rewrite range_down_S, for_each_snoc, Hrun.
    replace (d self - 2 - Z.of_nat n) with (Z.of_nat (D - 1 - n)) by lia.
    unfold right_step, bind, lift, ret, call. rewrite HU, HF.
    destruct n as [|n'].
    + destruct back; [|done].
      replace (Z.of_nat (D - 1 - 0) =? d self - 2) with true
        by (symmetry; apply Z.eqb_eq; lia).
      destruct (ApplyLinearTransform Fk (transpose Uk)
                  (interface_path self (Z.of_nat (D - 1 - 0))) (ws 0%nat))
        as [Y w'] eqn:Hcall.
      exists [Y], (λ i, if decide (i = 1%nat) then w' else ws i).
      do 3 (split; [done|]).
      intros pre k Hpre Hk. assert (k = (D - 1 - 0)%nat) as -> by lia.
      exists Uk, Fk, Y. repeat (split; [done|]).
      split; [replace (D - 1 - 0)%nat with (length pre) by lia;
              apply list_lookup_middle; done|].
      rewrite length_app. simpl length.
      rewrite decide_True by lia.
      replace (0 + (length pre + 1 - 1 - (D - 1 - 0)))%nat with 0%nat by lia.
      done.
    + destruct back as [|Yprev back']; [done|].
      replace (Z.of_nat (D - 1 - S n') =? d self - 2) with false
        by (symmetry; apply Z.eqb_neq; lia).
      destruct (DoubleProducts Fk Yprev
                  (interface_path self (Z.of_nat (D - 1 - S n')))
                  (transpose Uk) (ws (S n'))) as [Y w'] eqn:Hcall.
      exists (Y :: Yprev :: back'),
             (λ i, if decide (i = S (S n')) then w' else ws i).
      split; [by rewrite decide_True|].
      split; [simpl in *; lia|].
      split; [done|].
      intros pre k Hpre Hk. destruct (decide (k = length pre)) as [->|Hne].
      * assert (Hk0 : (D - 1 - S n')%nat = length pre) by lia.
        rewrite Hk0 in HU, HF, Hcall.
        exists Uk, Fk, Y. repeat (split; [done|]).
        split; [apply list_lookup_middle; done|].
        rewrite length_app. simpl length. simpl in Hlen.
        rewrite decide_False by lia.
        exists Yprev. split.
        { rewrite lookup_app_r by lia.
          by replace (S (length pre) - length pre)%nat with 1%nat by lia. }
        replace (0 + (length pre + S (S (length back')) - 1 - length pre))%nat
          with (S n') by lia.
        rewrite decide_False by lia. rewrite decide_True by done. done.
      * rewrite (cons_middle Y pre), app_assoc.
        apply (right_produces_shift self 0 0 _ ws).
        -- intros j Hj. rewrite !length_app in Hj. simpl in Hj, Hlen.
           simpl. rewrite decide_False by lia. done.
        -- apply Hsteps; rewrite length_app; simpl; lia.
Qed.

Lemma ready_left self (k : nat) :
  sweep_ready self → Z.of_nat k < root self →
  ∃ Uk Fk, ComponentTensor self (Z.of_nat k) 1 = Ok Uk
           ∧ ComponentBasis self (Z.of_nat k) = Ok Fk.
Proof.
  intros (Hd & Hroot & Hbasis & Haxes) Hk.
  destruct (lookup_lt_is_Some_2 (U self) k) as [Uk HUk]; [lia|].
  destruct (lookup_lt_is_Some_2 (basis self) k) as [Fk HFk]; [lia|].
  destruct (three_axes Uk) as (a & b & c & Hs); [apply (Haxes k); [done|lia]|].
  eexists _, Fk. split.
  - apply (ComponentTensor_left self k Uk a b c); [done|lia|done].
  - by apply py_index_lookup.
Qed.

Lemma ready_right self (k : nat) :
  sweep_ready self → root self ≤ Z.of_nat k < d self - 1 →
  ∃ Uk Fk, ComponentTensor self (Z.of_nat k + 1) 2 = Ok Uk
           ∧ ComponentBasis self (Z.of_nat k + 1) = Ok Fk.
Proof.
  intros (Hd & Hroot & Hbasis & Haxes) Hk.
  replace (Z.of_nat k + 1) with (Z.of_nat (S k)) by lia.
  destruct (lookup_lt_is_Some_2 (U self) (S k)) as [Uk HUk]; [lia|].
  destruct (lookup_lt_is_Some_2 (basis self) (S k)) as [Fk HFk]; [lia|].
  destruct (three_axes Uk) as (a & b & c & Hs); [apply (Haxes (S k)); [done|lia]|].
  eexists _, Fk. split.
  - apply (ComponentTensor_right self (S k) Uk a b c); [done|lia|done].
  - by apply py_index_lookup.
Qed.

(** The whole run of [ComputeInterfaces] on a ready instance: both loops
    end normally, the first with the readers of the bonds below the root
    and the second with those of the bonds from the root on, and every
    reader is produced by the call described by [left_produces] or
    [right_produces]. *)
Lemma sweep_runs self w :
  sweep_ready self →
  ∃ (ilist blist : list reader) (Y1 Y2 : option reader) ws,
    let r := Z.to_nat (root self) in
    let l := ilist ++ blist in
    for_each (left_step self) (range (root self)) (None, []) w
    = (Ok (Y1, ilist), ws r)
    ∧ for_each (right_step self) (range_down (d self - 2) (root self - 1))
        (Y1, []) (ws r)
      = (Ok (Y2, blist), ws (length l))
    ∧ ComputeInterfaces self w = (Ok l, ws (length l))
    ∧ ws 0%nat = w
    ∧ length ilist = r
    ∧ Z.of_nat (length l) = d self - 1
    ∧ (∀ k : nat, (k < r)%nat → left_produces self l ws k)
    ∧ (∀ k : nat, (r ≤ k < length l)%nat → right_produces self r l ws k).
Proof.
  intros Hready. pose proof Hready as (Hd & Hroot & Hbasis & Haxes).
  set (r := Z.to_nat (root self)). set (D := Z.to_nat (d self - 1)).
  destruct (left_loop self w r) as (ilist & wsL & HrunL & HlenL & HwL & HstepsL).
  { intros k Hk. apply ready_left; [done|lia]. }
  destruct (right_loop self (wsL r) (last ilist) D (D - r))
    as (blist & wsR & HrunR & HlenR & HwR & HstepsR); [lia|lia| |].
  { intros k Hk. apply ready_right; [done|lia]. }
  replace (Z.of_nat r) with (root self) in HrunL by lia.
  replace (d self - 2 - Z.of_nat (D - r)) with (root self - 1) in HrunR by lia.
  exists ilist, blist, (last ilist), (match blist with [] => last ilist | Y :: _ => Some Y end),
    (λ i, if decide (i ≤ r)%nat then wsL i else wsR (i - r)%nat).
  cbv zeta. fold r.
  assert (Hlen : length (ilist ++ blist) = D) by (rewrite length_app; lia).
  assert (Hend : (if decide (length (ilist ++ blist) ≤ r)%nat
                  then wsL (length (ilist ++ blist))
                  else wsR (length (ilist ++ blist) - r)%nat) = wsR (D - r)%nat).
  { rewrite Hlen. case_decide; [|done].
    assert (D = r) as -> by lia. by rewrite Nat.sub_diag, HwR. }
  rewrite decide_True by lia. rewrite Hend.
  split; [done|]. split; [done|].
  split.
  { unfold ComputeInterfaces, bind, ret. by rewrite HrunL, HrunR. }
  split; [by rewrite decide_True by lia|].
  split; [done|]. split; [lia|].
  split.
  - intros k Hk. apply (left_produces_mono self ilist blist wsL); [lia| |by apply HstepsL].
    intros i Hi. by rewrite decide_True by lia.
  - intros k Hk. apply (right_produces_shift self 0 r _ wsR); [|apply HstepsR; lia].
    intros j Hj. destruct (decide (r + j ≤ r)%nat) as [Hle|Hgt].
    + assert (j = 0%nat) as -> by lia. rewrite Nat.add_0_r. simpl. by rewrite HwR.
    + f_equal. lia.
Qed.

Lemma unfolded_left self (k : nat) (Uk : ndarray elt) :
  sweep_ready self → Z.of_nat k < root self →
  ComponentTensor self (Z.of_nat k) 1 = Ok Uk →
  ∃ Ck (a b c : nat),
    U self !! k = Some Ck ∧ shape Ck = [a; b; c]
    ∧ Uk = mk_ndarray [(a * b)%nat; c] (data Ck).
Proof.
  intros (Hd & Hroot & Hbasis & Haxes) Hk HU.
  destruct (lookup_lt_is_Some_2 (U self) k) as [Ck HCk]; [lia|].
  destruct (three_axes Ck) as (a & b & c & Hs); [apply (Haxes k); [done|lia]|].
  exists Ck, a, b, c. do 2 (split; [done|]).
  rewrite (ComponentTensor_left self k Ck a b c) in HU; [congruence|done|lia|done].
Qed.

Lemma unfolded_right self (k : nat) (Uk : ndarray elt) :
  sweep_ready self → root self < Z.of_nat k < d self →
  ComponentTensor self (Z.of_nat k) 2 = Ok Uk →
  ∃ Ck (a b c : nat),
    U self !! k = Some Ck ∧ shape Ck = [a; b; c]
    ∧ Uk = mk_ndarray [a; (b * c)%nat] (data Ck).
Proof.
  intros (Hd & Hroot & Hbasis & Haxes) Hk HU.
  destruct (lookup_lt_is_Some_2 (U self) k) as [Ck HCk]; [lia|].
  destruct (three_axes Ck) as (a & b & c & Hs); [apply (Haxes k); [done|lia]|].
  exists Ck, a, b, c. do 2 (split; [done|]).
  rewrite (ComponentTensor_right self k Ck a b c) in HU; [congruence|done|lia|done].
Qed.

(** C1. The left sweep. On a ready instance whose root is above 0,
    [ComputeInterfaces] returns a list [l] with: [l[0]] the result of
    [ApplyLinearTransform] on basis source 0 and the left unfolding of
    component 0, and for 0 < k < root, [l[k]] the result of
    [DoubleProducts] on [l[k-1]], basis source [k] and the left unfolding
    of component [k]; the call for [k] is the [k]-th call made. *)
Theorem left_sweep_correct self w :
  sweep_ready self → 0 < root self →
  ∃ l ws,
    ComputeInterfaces self w = (Ok l, ws (length l)) ∧ ws 0%nat = w
    ∧ (∃ U0 F0 Y0 C0 (a b c : nat),
         ComponentTensor self 0 1 = Ok U0
         ∧ U self !! 0%nat = Some C0 ∧ shape C0 = [a; b; c]
         ∧ U0 = mk_ndarray [(a * b)%nat; c] (data C0)
         ∧ basis self !! 0%nat = Some F0
         ∧ l !! 0%nat = Some Y0
         ∧ ApplyLinearTransform F0 U0 (tensordir self +:+ "Interface0") (ws 0%nat)
           = (Y0, ws 1%nat))
    ∧ ∀ k : nat, (0 < k)%nat → Z.of_nat k < root self →
        ∃ Uk Fk Yprev Yk Ck (a b c : nat),
          ComponentTensor self (Z.of_nat k) 1 = Ok Uk
          ∧ U self !! k = Some Ck ∧ shape Ck = [a; b; c]
          ∧ Uk = mk_ndarray [(a * b)%nat; c] (data Ck)
          ∧ basis self !! k = Some Fk
          ∧ l !! (k - 1)%nat = Some Yprev
          ∧ l !! k = Some Yk
          ∧ DoubleProducts Yprev Fk
              (tensordir self +:+ "Interface" +:+ fmt_d (Z.of_nat k)) Uk (ws k)
            = (Yk, ws (S k)).
Proof.
  intros Hready Hroot.
  destruct (sweep_runs self w Hready)
    as (ilist & blist & Y1 & Y2 & ws & _ & _ & Hrun & Hw & _ & _ & Hleft & _).
  cbv zeta in *.
  assert (Hbasis : ∀ (k : nat) Fk, Z.of_nat k < root self →
            ComponentBasis self (Z.of_nat k) = Ok Fk → basis self !! k = Some Fk).
  { intros k Fk Hk HF. destruct Hready as (Hd & Hr & Hb & _).
    destruct (lookup_lt_is_Some_2 (basis self) k) as [F HFk]; [lia|].
    unfold ComponentBasis in HF. rewrite (py_index_lookup _ _ _ HFk) in HF.
    congruence. }
  exists (ilist ++ blist), ws. do 2 (split; [done|]). split.
  - destruct (Hleft 0%nat) as (U0 & F0 & Y0 & HU & HF & HY & Hcall); [lia|].
    destruct (unfolded_left self 0 U0 Hready) as (C0 & a & b & c & HC & Hs & HU0);
      [lia|done|].
    exists U0, F0, Y0, C0, a, b, c. repeat (split; [done|]).
    split; [apply Hbasis; [lia|done]|]. done.
  - intros k Hk0 Hk.
    destruct (Hleft k) as (Uk & Fk & Yk & HU & HF & HY & Hcall); [lia|].
    destruct k as [|k']; [lia|]. destruct Hcall as (Yprev & Hprev & Hcall).
    destruct (unfolded_left self (S k') Uk Hready) as (Ck & a & b & c & HC & Hs & HUk);
      [lia|done|].
    exists Uk, Fk, Yprev, Yk, Ck, a, b, c. repeat (split; [done|]).
    split; [apply Hbasis; [lia|done]|].
    split; [by replace (S k' - 1)%nat with k' by lia|]. done.
Qed.

(** C2. The right sweep. On a ready instance with at least one bond at
    or right of the root, [ComputeInterfaces] returns a list [l] of
    length d-1 with: [l[d-2]] the result of [ApplyLinearTransform] on
    basis source d-1 and the transpose of the right unfolding of
    component d-1, made first in the second loop; and for k from d-3 down
    to the root, [l[k]] the result of [DoubleProducts] on basis source
    k+1, the reader [l[k+1]] of the step before, and the transpose of the
    right unfolding of component k+1. *)
Theorem right_sweep_correct self w :
  sweep_ready self → root self ≤ d self - 2 →
  ∃ l ws,
    let r := Z.to_nat (root self) in
    let n := length l in
    ComputeInterfaces self w = (Ok l, ws n) ∧ ws 0%nat = w
    ∧ Z.of_nat n = d self - 1
    ∧ (∃ Ud Fd Yd Cd (a b c : nat),
         ComponentTensor self (d self - 1) 2 = Ok Ud
         ∧ U self !! n = Some Cd ∧ shape Cd = [a; b; c]
         ∧ Ud = mk_ndarray [a; (b * c)%nat] (data Cd)
         ∧ basis self !! n = Some Fd
         ∧ l !! (n - 1)%nat = Some Yd
         ∧ ApplyLinearTransform Fd (transpose Ud)
             (tensordir self +:+ "Interface" +:+ fmt_d (d self - 2)) (ws r)
           = (Yd, ws (S r)))
    ∧ ∀ k : nat, root self ≤ Z.of_nat k ≤ d self - 3 →
        ∃ Uk Fk Yprev Yk Ck (a b c : nat),
          ComponentTensor self (Z.of_nat k + 1) 2 = Ok Uk
          ∧ U self !! S k = Some Ck ∧ shape Ck = [a; b; c]
          ∧ Uk = mk_ndarray [a; (b * c)%nat] (data Ck)
          ∧ basis self !! S k = Some Fk
          ∧ l !! S k = Some Yprev
          ∧ l !! k = Some Yk
          ∧ DoubleProducts Fk Yprev
              (tensordir self +:+ "Interface" +:+ fmt_d (Z.of_nat k))
              (transpose Uk) (ws (r + (n - 1 - k))%nat)
            = (Yk, ws (S (r + (n - 1 - k)))).
Proof.
  intros Hready Hroot.
  destruct (sweep_runs self w Hready)
    as (ilist & blist & Y1 & Y2 & ws & _ & _ & Hrun & Hw & _ & Hlen & _ & Hright).
  cbv zeta in *.
  assert (Hbasis : ∀ (k : nat) Fk, Z.of_nat k < d self - 1 →
            ComponentBasis self (Z.of_nat k + 1) = Ok Fk →
            basis self !! S k = Some Fk).
  { intros k Fk Hk HF. destruct Hready as (Hd & Hr & Hb & _).
    destruct (lookup_lt_is_Some_2 (basis self) (S k)) as [F HFk]; [lia|].
    unfold ComponentBasis in HF.
    replace (Z.of_nat k + 1) with (Z.of_nat (S k)) in HF by lia.
    rewrite (py_index_lookup _ _ _ HFk) in HF. congruence. }
  assert (Hunf : ∀ (k : nat) Uk, root self ≤ Z.of_nat k < d self - 1 →
            ComponentTensor self (Z.of_nat k + 1) 2 = Ok Uk →
            ∃ Ck (a b c : nat), U self !! S k = Some Ck ∧ shape Ck = [a; b; c]
              ∧ Uk = mk_ndarray [a; (b * c)%nat] (data Ck)).
  { intros k Uk Hk HU. apply unfolded_right; [done|lia|].
    by replace (Z.of_nat (S k)) with (Z.of_nat k + 1) by lia. }
  set (l := ilist ++ blist) in *.
  pose proof Hready as (_ & Hr0 & _).
  exists l, ws. do 3 (split; [done|]). split.
  - destruct (Hright (length l - 1)%nat)
      as (Ud & Fd & Yd & HU & HF & HY & Hcall); [lia|].
    rewrite decide_True in Hcall by lia.
    replace (Z.to_nat (root self) + (length l - 1 - (length l - 1)))%nat
      with (Z.to_nat (root self)) in Hcall by lia.
    destruct (Hunf (length l - 1)%nat Ud) as (Cd & a & b & c & HC & Hs & HUd);
      [lia|done|].
    assert (HFd : basis self !! S (length l - 1) = Some Fd)
      by (apply Hbasis; [lia|done]).
    replace (S (length l - 1)) with (length l) in HC, HFd by lia.
    replace (Z.of_nat (length l - 1) + 1) with (d self - 1) in HU by lia.
    replace (Z.of_nat (length l - 1)) with (d self - 2) in Hcall by lia.
    exists Ud, Fd, Yd, Cd, a, b, c. repeat (split; [done|]). done.
  - intros k Hk.
    destruct (Hright k) as (Uk & Fk & Yk & HU & HF & HY & Hcall); [lia|].
    rewrite decide_False in Hcall by lia.
    destruct Hcall as (Yprev & Hprev & Hcall).
    destruct (Hunf k Uk) as (Ck & a & b & c & HC & Hs & HUk); [lia|done|].
    exists Uk, Fk, Yprev, Yk, Ck, a, b, c. repeat (split; [done|]).
    split; [apply Hbasis; [lia|done]|]. done.
Qed.

(** C4. Bond coverage. On a ready instance of dimension d the first loop
    ends with [root] readers and the second with [d-1-root]; the returned
    list is the first followed by the second, has length d-1, holds at
    each key below the root a reader of the first loop and at each key
    from the root to d-2 a reader of the second loop; the first loop runs
    over exactly the keys 0..root-1, the second over exactly the keys
    root..d-2, no key is visited twice, and the cache paths of the two
    loops differ. With root 0 the first loop does nothing and the
    returned list is that of the second loop. *)
Theorem full_bond_coverage self w :
  sweep_ready self →
  ∃ (interface_list backward_list : list reader) (Y1 Y2 : option reader) w1 w2,
    for_each (left_step self) (range (root self)) (None, []) w
    = (Ok (Y1, interface_list), w1)
    ∧ for_each (right_step self) (range_down (d self - 2) (root self - 1))
        (Y1, []) w1
      = (Ok (Y2, backward_list), w2)
    ∧ ComputeInterfaces self w = (Ok (interface_list ++ backward_list), w2)
    ∧ Z.of_nat (length interface_list) = root self
    ∧ Z.of_nat (length backward_list) = d self - 1 - root self
    ∧ Z.of_nat (length (interface_list ++ backward_list)) = d self - 1
    ∧ (∀ k : nat, Z.of_nat k < root self →
         ∃ Y, interface_list !! k = Some Y
              ∧ (interface_list ++ backward_list) !! k = Some Y)
    ∧ (∀ k : nat, root self ≤ Z.of_nat k ≤ d self - 2 →
         ∃ Y, backward_list !! (k - Z.to_nat (root self))%nat = Some Y
              ∧ (interface_list ++ backward_list) !! k = Some Y)
    ∧ (∀ k : Z, k ∈ range (root self) ↔ 0 ≤ k < root self)
    ∧ (∀ k : Z, k ∈ range_down (d self - 2) (root self - 1)
                ↔ root self ≤ k ≤ d self - 2)
    ∧ NoDup (range (root self) ++ range_down (d self - 2) (root self - 1))
    ∧ (∀ j k : Z, j ∈ range (root self) →
         k ∈ range_down (d self - 2) (root self - 1) →
         interface_path self j ≠ interface_path self k)
    ∧ (root self = 0 →
         interface_list = [] ∧ w1 = w
         ∧ ComputeInterfaces self w = (Ok backward_list, w2)).
Proof.
  intros Hready.
  destruct (sweep_runs self w Hready)
    as (ilist & blist & Y1 & Y2 & ws & HrunL & HrunR & Hrun & Hw & HlenL & Hlen & _).
  cbv zeta in *. pose proof Hready as (Hd & Hroot & _).
  exists ilist, blist, Y1, Y2, (ws (Z.to_nat (root self))),
    (ws (length (ilist ++ blist))).
  do 3 (split; [done|]).
  split; [lia|]. split; [rewrite length_app in Hlen; lia|]. split; [done|].
  split.
  { intros k Hk. destruct (lookup_lt_is_Some_2 ilist k) as [Y HY]; [lia|].
    exists Y. split; [done|]. by apply lookup_app_l_Some. }
  split.
  { intros k Hk. rewrite length_app in Hlen.
    destruct (lookup_lt_is_Some_2 blist (k - Z.to_nat (root self))) as [Y HY]; [lia|].
    exists Y. split; [done|]. rewrite lookup_app_r by lia. by rewrite HlenL. }
  split; [intros k; apply elem_of_range|].
  split; [intros k; rewrite elem_of_range_down; lia|].
  split.
  { apply NoDup_app. split; [apply NoDup_seqZ|].
    split; [|apply NoDup_range_down].
    intros k Hl Hr. apply elem_of_range in Hl. apply elem_of_range_down in Hr. lia. }
  split.
  { intros j k Hj Hk Heq. apply elem_of_range in Hj. apply elem_of_range_down in Hk.
    unfold interface_path in Heq. do 2 apply (inj (String.append _)) in Heq.
    apply fmt_d_inj in Heq. lia. }
  intros Hr0. assert (ilist = []) as -> by (apply nil_length_inv; lia).
  split; [done|]. split; [|done]. by rewrite Hr0, <- Hw.
Qed.

(** C10. The cache paths. Every reader [l[k]] returned by the sweep on a
    ready instance is the result of a primitive call whose path argument
    is the cache directory followed, with nothing in between, by
    "Interface" and the decimal digits of [k], in the first loop and in
    the second alike; and an instance constructed without a cache
    directory has the directory "./", one constructed with a directory
    has that one. *)
Theorem cache_path_scheme :
  (∀ self w, sweep_ready self →
     ∃ l ws,
       ComputeInterfaces self w = (Ok l, ws (length l))
       ∧ Z.of_nat (length l) = d self - 1
       ∧ ∀ k : nat, (k < length l)%nat →
           ∃ Yk (i : nat),
             l !! k = Some Yk
             ∧ let path := tensordir self +:+ "Interface" +:+ fmt_d (Z.of_nat k) in
               (∃ F A, ApplyLinearTransform F A path (ws i) = (Yk, ws (S i)))
               ∨ (∃ A B C, DoubleProducts A B path C (ws i) = (Yk, ws (S i))))
  ∧ (∀ U0 basis0 tensordir0 w self w',
       __init__ ApplyLinearTransform DoubleProducts U0 basis0 tensordir0 w
       = (Ok self, w') →
       tensordir self = match tensordir0 with
                        | Some t => t
                        | None => "./"%string
                        end).
Proof.
  split.
  - intros self w Hready.
    destruct (sweep_runs self w Hready)
      as (ilist & blist & Y1 & Y2 & ws & _ & _ & Hrun & _ & _ & Hlen & Hleft & Hright).
    cbv zeta in *. set (l := ilist ++ blist) in *.
    exists l, ws. do 2 (split; [done|]).
    intros k Hk. destruct (decide (k < Z.to_nat (root self))%nat) as [Hlt|Hge].
    + destruct (Hleft k Hlt) as (Uk & Fk & Yk & _ & _ & HY & Hcall).
      exists Yk, k. split; [done|]. destruct k as [|k'].
      * left. by exists Fk, Uk.
      * destruct Hcall as (Yprev & _ & Hcall). right. by exists Yprev, Fk, Uk.
    + destruct (Hright k) as (Uk & Fk & Yk & _ & _ & HY & Hcall); [lia|].
      exists Yk, (Z.to_nat (root self) + (length l - 1 - k))%nat.
      split; [done|]. case_decide.
      * left. by exists Fk, (transpose Uk).
      * destruct Hcall as (Yprev & _ & Hcall). right.
        by exists Fk, Yprev, (transpose Uk).
  - intros U0 basis0 tensordir0 w self w'.
    unfold __init__, bind, lift, ret.
    destruct (read_M U0); [|done].
    destruct (np_zeros _); [|done].
    destruct (extract_ranks _ _ _); [|done].
    destruct (ComputeInterfaces _ w) as [[?|?] ?]; [|done].
    intros [= <- _]. simpl. by destruct tensordir0.
Qed.

(** A loop whose body returns the same value from any two worlds does so
    too. *)
Lemma for_each_deterministic {S : Type} (body : Z → S → io world S) :
  (∀ k st w1 w2, (body k st w1).1 = (body k st w2).1) →
  ∀ ks st w1 w2, (for_each body ks st w1).1 = (for_each body ks st w2).1.
Proof.
  intros Hbody ks. induction ks as [|k ks IH]; intros st w1 w2; [done|].
  simpl. unfold bind. specialize (Hbody k st w1 w2).
  destruct (body k st w1) as [[st1|e1] w1'], (body k st w2) as [[st2|e2] w2'];
    simpl in Hbody; try done.
  injection Hbody as ->. apply IH.
Qed.

(** C8. Idempotence of the sweep. When the value returned by each
    primitive is a function of its arguments (readers, matrix and cache
    path), [ComputeInterfaces] returns the same result, a list of readers
    or an exception, from any two worlds; so running it again on the same
    instance, in the world the first run left, returns what the first run
    returned. *)
Theorem sweep_idempotent :
  (∀ F A p w1 w2,
     (ApplyLinearTransform F A p w1).1 = (ApplyLinearTransform F A p w2).1) →
  (∀ A B p C w1 w2,
     (DoubleProducts A B p C w1).1 = (DoubleProducts A B p C w2).1) →
  ∀ self,
    (∀ w1 w2, (ComputeInterfaces self w1).1 = (ComputeInterfaces self w2).1)
    ∧ ∀ w, (ComputeInterfaces self (ComputeInterfaces self w).2).1
           = (ComputeInterfaces self w).1.
Proof.
  intros Hlin Hdbl self.
  assert (Hcall : ∀ (f : world → reader * world) w1 w2,
            (f w1).1 = (f w2).1 → (call f w1).1 = (call f w2).1).
  { intros f w1 w2 Hf. unfold call.
    destruct (f w1), (f w2). simpl in *. by subst. }
  assert (Hl : ∀ k st w1 w2, (left_step self k st w1).1 = (left_step self k st w2).1).
  { intros k [Yk il] w1 w2. unfold left_step, bind, lift, ret.
    destruct (ComponentTensor self k 1) as [Uk|]; [|done].
    destruct (ComponentBasis self k) as [Fk|]; [|done].
    destruct (k =? 0).
    - specialize (Hcall _ w1 w2 (Hlin Fk Uk (interface_path self k) w1 w2)).
      destruct (call _ w1) as [[?|?] ?], (call _ w2) as [[?|?] ?];
        simpl in Hcall; by simplify_eq.
    - destruct Yk as [Y|]; [|done].
      specialize (Hcall _ w1 w2 (Hdbl Y Fk (interface_path self k) Uk w1 w2)).
      destruct (call _ w1) as [[?|?] ?], (call _ w2) as [[?|?] ?];
        simpl in Hcall; by simplify_eq. }
  assert (Hr : ∀ k st w1 w2, (right_step self k st w1).1 = (right_step self k st w2).1).
  { intros k [Yk bl] w1 w2. unfold right_step, bind, lift, ret.
    destruct (ComponentTensor self (k + 1) 2) as [Uk|]; [|done].
    destruct (ComponentBasis self (k + 1)) as [Fk|]; [|done].
    destruct (k =? d self - 2).
    - specialize (Hcall _ w1 w2
                    (Hlin Fk (transpose Uk) (interface_path self k) w1 w2)).
      destruct (call _ w1) as [[?|?] ?], (call _ w2) as [[?|?] ?];
        simpl in Hcall; by simplify_eq.
    - destruct Yk as [Y|]; [|done].
      specialize (Hcall _ w1 w2
                    (Hdbl Fk Y (interface_path self k) (transpose Uk) w1 w2)).
      destruct (call _ w1) as [[?|?] ?], (call _ w2) as [[?|?] ?];
        simpl in Hcall; by simplify_eq. }
  assert (Hall : ∀ w1 w2, (ComputeInterfaces self w1).1 = (ComputeInterfaces self w2).1).
  { intros w1 w2. unfold ComputeInterfaces, bind, ret.
    pose proof (for_each_deterministic _ Hl (range (root self)) (None, []) w1 w2) as HL.
    destruct (for_each _ (range (root self)) _ w1) as [[[Y1 il1]|e1] w1'],
             (for_each _ (range (root self)) _ w2) as [[[Y2 il2]|e2] w2'];
      simpl in HL; try done; simplify_eq; [|done].
    pose proof (for_each_deterministic _ Hr
                  (range_down (d self - 2) (root self - 1)) (Y2, []) w1' w2') as HR.
    destruct (for_each _ (range_down _ _) _ w1') as [[[Y1' bl1]|e1] w1''],
             (for_each _ (range_down _ _) _ w2') as [[[Y2' bl2]|e2] w2''];
      simpl in HR; try done; by simplify_eq. }
  split; [done|]. intros w. apply Hall.
Qed.

(** *** The constructor *)

Lemma extract_ranks_snoc (U0 : list (ndarray elt)) ks k R0 :
  extract_ranks U0 (ks ++ [k]) R0
  = (R1 <~ extract_ranks U0 ks R0;
     Uk <~ py_index U0 k;
     r <~ py_index (shape Uk) 2;
     py_setitem R1 k (float64_of_int r)).
Proof.
  revert R0. induction ks as [|k0 ks IH]; intros R0; simpl.
  - destruct (py_index U0 k) as [Uk|]; [|done]. simpl.
    destruct (py_index (shape Uk) 2) as [r|]; [|done]. simpl.
    by destruct (py_setitem R0 k (float64_of_int r)).
  - destruct (py_index U0 k0) as [Uk|]; [|done]. simpl.
    destruct (py_index (shape Uk) 2) as [r|]; [|done]. simpl.
    destruct (py_setitem R0 k0 (float64_of_int r)) as [R1|]; [|done]. simpl. apply IH.
Qed.

(** An integer up to 2^53 is stored as it is. *)
Lemma float64_of_int_small (n : nat) :
  Z.of_nat n ≤ 2 ^ 53 → float64_of_int n = n.
Proof.
  intros Hn.
  assert (Hr : float64_round (Z.of_nat n) = Z.of_nat n).
  { unfold float64_round. cbv zeta.
    destruct (Z.leb_spec (Z.log2 (Z.of_nat n) + 1 - 53) 0) as [_|He]; [done|].
    assert (Hz : Z.of_nat n = 2 ^ 53).
    { assert (0 < Z.of_nat n) by (destruct n; [simpl in He; lia|lia]).
      assert (¬ Z.of_nat n < 2 ^ 53); [|lia].
      intros Hlt. apply Z.log2_lt_pow2 in Hlt; lia. }
    rewrite Hz. vm_compute. reflexivity. }
  unfold float64_of_int. rewrite Hr. apply Nat2Z.id.
Qed.

(** The loop over [range(d-1)] stores at each index the third extent of
    the component of that index, as a double. *)
Lemma extract_ranks_run (U0 : list (ndarray elt)) (N n : nat) :
  (n ≤ N)%nat → (n ≤ length U0)%nat →
  (∀ (k : nat) Uk, (k < n)%nat → U0 !! k = Some Uk → (3 ≤ length (shape Uk))%nat) →
  ∃ R1,
    extract_ranks U0 (range (Z.of_nat n)) (replicate N 0%nat) = Ok R1
    ∧ length R1 = N
    ∧ ∀ (k : nat) Uk, (k < n)%nat → U0 !! k = Some Uk →
        ∃ r, shape Uk !! 2%nat = Some r ∧ R1 !! k = Some (float64_of_int r).
Proof.
  induction n as [|n IH]; intros HN HU Haxes.
  - exists (replicate N 0%nat). split; [done|].
    split; [apply length_replicate|]. intros k Uk Hk. lia.
  - destruct IH as (R1 & Hrun & Hlen & Hent); [lia|lia| |].
    { intros k Uk Hk. apply Haxes. lia. }
    destruct (lookup_lt_is_Some_2 U0 n) as [Un HUn]; [lia|].
    pose proof (Haxes n Un ltac:(lia) HUn) as H3.
    destruct (lookup_lt_is_Some_2 (shape Un) 2) as [r Hr]; [lia|].
    exists (<[n := float64_of_int r]> R1).
    rewrite range_S, extract_ranks_snoc, Hrun. simpl.
    rewrite (py_index_lookup _ _ _ HUn). simpl.
    change 2 with (Z.of_nat 2). rewrite (py_index_lookup _ _ _ Hr). simpl.
    split; [apply py_setitem_lookup; lia|].
    split; [by rewrite length_insert|].
    intros k Uk Hk HUk. destruct (decide (k = n)) as [->|Hne].
    + exists r. simplify_eq. split; [done|].
      apply list_lookup_insert_eq. lia.
    + destruct (Hent k Uk) as (r' & Hr' & HR'); [lia|done|].
      exists r'. split; [done|]. by rewrite list_lookup_insert_ne.
Qed.

Lemma read_M_cons (U0 : ndarray elt) rest :
  read_M (U0 :: rest) = py_index (shape U0) 3.
Proof. reflexivity. Qed.

(** C3 (as the code has it). The rank vector is read off the components
    one by one and is not checked: for a chain of at least two components
    whose first has four axes and whose others have three, with a basis
    source for every component, whatever the first extents (left ranks)
    are, the rank loop ends without raising, entry [k] of the rank vector
    being the third extent of component [k] stored as a float64 (the extent
    itself up to 2^53); and the constructor then makes its first call of a
    primitive, [ApplyLinearTransform] on the basis source of the last
    coordinate and the transposed order-2 unfolding of the last component,
    in the world it was given. What the constructor returns is what the
    remaining steps of the second loop make of the result of that call. *)
Theorem construction_derives_ranks (U0 : ndarray elt) rest basis0 tensordir0 w :
  length (shape U0) = 4%nat →
  Forall (λ Uk, length (shape Uk) = 3%nat) rest →
  rest ≠ [] →
  (length rest < length basis0)%nat →
  ∃ (m : nat) (R1 : list nat) Ulast Flast (a b c : nat),
    let tensordir1 := default "./"%string tensordir0 in
    let d1 := Z.of_nat (length (U0 :: rest)) in
    let self := mk_BlockTTtensor (U0 :: rest) basis0 tensordir1 d1 0 m R1 [] in
    read_M (U0 :: rest) = Ok m
    ∧ extract_ranks (U0 :: rest) (range (d1 - 1)) (replicate (length rest) 0%nat)
      = Ok R1
    ∧ length R1 = length rest
    ∧ (∀ (k : nat) Uk, (k < length rest)%nat → (U0 :: rest) !! k = Some Uk →
         ∃ r, shape Uk !! 2%nat = Some r
              ∧ R1 !! k = Some (float64_of_int r)
              ∧ (Z.of_nat r ≤ 2 ^ 53 → R1 !! k = Some r))
    ∧ (U0 :: rest) !! length rest = Some Ulast ∧ shape Ulast = [a; b; c]
    ∧ basis0 !! length rest = Some Flast
    ∧ __init__ ApplyLinearTransform DoubleProducts (U0 :: rest) basis0 tensordir0 w
      = (let '(Y, w1) :=
           ApplyLinearTransform Flast
             (transpose (mk_ndarray [a; (b * c)%nat] (data Ulast)))
             (tensordir1 +:+ "Interface" +:+ fmt_d (d1 - 2)) w in
         match for_each (right_step self) (range_down (d1 - 3) (-1))
                 (Some Y, [Y]) w1 with
         | (Ok (_, backward_list), w2) =>
             (Ok (mk_BlockTTtensor (U0 :: rest) basis0 tensordir1 d1 0 m R1
                    backward_list), w2)
         | (Raise e, w2) => (Raise e, w2)
         end).
Proof.
  intros H4 H3 Hne Hbasis.
  destruct (shape U0) as [|a0 [|b0 [|c0 [|m [|? ?]]]]] eqn:Hs; try discriminate.
  pose proof H3 as H3'. rewrite Forall_lookup in H3'.
  assert (Hlen : (0 < length rest)%nat) by (destruct rest; [done|simpl; lia]).
  destruct (extract_ranks_run (U0 :: rest) (length rest) (length rest))
    as (R1 & Hranks & HlenR & Hent); [lia|simpl; lia| |].
  { intros [|k] Uk Hk HUk; simpl in HUk.
    - simplify_eq. rewrite Hs. simpl. lia.
    - rewrite (H3' k Uk HUk). lia. }
  destruct (lookup_lt_is_Some_2 (U0 :: rest) (length rest)) as [Ulast HUl];
    [simpl; lia|].
  assert (H3l : length (shape Ulast) = 3%nat).
  { destruct (length rest) as [|n] eqn:E; [lia|]. simpl in HUl. by apply (H3' n). }
  destruct (three_axes Ulast H3l) as (a & b & c & HsU).
  destruct (lookup_lt_is_Some_2 basis0 (length rest)) as [Flast HFl]; [lia|].
  exists m, R1, Ulast, Flast, a, b, c. cbv zeta.
  replace (Z.of_nat (length (U0 :: rest)) - 1) with (Z.of_nat (length rest))
    by (simpl; lia).
  split; [by rewrite read_M_cons, Hs|]. split; [done|]. split; [done|].
  split.
  { intros k Uk Hk HUk. destruct (Hent k Uk Hk HUk) as (r & Hr & HRk).
    exists r. do 2 (split; [done|]). intros Hsmall.
    by rewrite HRk, (float64_of_int_small r Hsmall). }
  do 3 (split; [done|]).
  unfold __init__, bind, lift, ret. rewrite read_M_cons, Hs.
  change (py_index [a0; b0; c0; m] 3) with (Ok m).
  unfold np_zeros.
  replace (Z.of_nat (length (U0 :: rest)) - 1) with (Z.of_nat (length rest))
    by (simpl; lia).
  destruct (Z.ltb_spec (Z.of_nat (length rest)) 0) as [?|_]; [lia|].
  rewrite Nat2Z.id, Hranks.
  set (self := mk_BlockTTtensor _ _ _ _ _ _ _ _).
  unfold ComputeInterfaces, bind, ret. simpl root. simpl d.
  change (range 0) with (@nil Z). simpl for_each. unfold ret.
  rewrite range_down_cons by (simpl; lia). rewrite for_each_cons.
  unfold right_step at 1. unfold bind, lift, ret, call. simpl d.
  replace (Z.of_nat (S (length rest)) - 2 + 1) with (Z.of_nat (length rest)) by lia.
  rewrite (ComponentTensor_right self (length rest) Ulast a b c);
    [|done|simpl; lia|done].
  unfold ComponentBasis. simpl basis. rewrite (py_index_lookup _ _ _ HFl).
  rewrite Z.eqb_refl.
  replace (Z.of_nat (S (length rest)) - 2 - 1) with (Z.of_nat (S (length rest)) - 3)
    by lia.
  change (interface_path self (Z.of_nat (S (length rest)) - 2))
    with (default "./"%string tensordir0 +:+ "Interface"
          +:+ fmt_d (Z.of_nat (S (length rest)) - 2)).
  destruct (ApplyLinearTransform _ _ _ w) as [Y w1].
  change (0 - 1) with (-1).
  destruct (for_each _ _ _ w1) as [[[Y2 bl]|e] w2]; reflexivity.
Qed.

(** C9. The fourth axis of the first component. The constructor reads
    [np.shape(U[0])[3]] first: when the first component has fewer than
    four axes that read raises IndexError and so does the constructor,
    whatever the other components, the basis sources and the cache
    directory are, leaving the world as it was (no primitive has been
    called); when it has four axes the read returns the fourth extent,
    which is the [M] of any instance constructed. *)
Theorem init_reads_fourth_axis (U0 : ndarray elt) rest basis0 tensordir0 w :
  ((length (shape U0) < 4)%nat →
     read_M (U0 :: rest) = Raise IndexError
     ∧ __init__ ApplyLinearTransform DoubleProducts (U0 :: rest) basis0 tensordir0 w
       = (Raise IndexError, w))
  ∧ (length (shape U0) = 4%nat →
     ∃ m, shape U0 !! 3%nat = Some m ∧ read_M (U0 :: rest) = Ok m
          ∧ ∀ self w',
              __init__ ApplyLinearTransform DoubleProducts (U0 :: rest) basis0
                tensordir0 w = (Ok self, w') →
              M self = m).
Proof.
  split.
  - intros Hlt.
    assert (HM : read_M (U0 :: rest) = Raise IndexError).
    { rewrite read_M_cons.
      destruct (shape U0) as [|a0 [|b0 [|c0 [|m ?]]]]; simpl in Hlt; [done..|lia]. }
    split; [done|]. unfold __init__, bind, lift. by rewrite HM.
  - intros H4.
    destruct (shape U0) as [|a0 [|b0 [|c0 [|m [|? ?]]]]] eqn:Hs; try discriminate.
    exists m. split; [done|].
    assert (HM : read_M (U0 :: rest) = Ok m) by (by rewrite read_M_cons, Hs).
    split; [done|]. intros self w'. unfold __init__, bind, lift, ret. rewrite HM.
    destruct (np_zeros _); [|done].
    destruct (extract_ranks _ _ _); [|done].
    destruct (ComputeInterfaces _ w) as [[?|?] ?]; [|done].
    by intros [= <- _].
Qed.

End Sweep.

(** ** Python indices *)

Lemma py_index_pos {A} (l : list A) (k : Z) :
  py_index l k = match py_pos (length l) k with
                 | Some i => match l !! i with
                             | Some x => Ok x
                             | None => Raise IndexError
                             end
                 | None => Raise IndexError
                 end.
Proof. unfold py_index, py_pos. by destruct (_ && _). Qed.

Lemma py_setitem_pos {A} (l : list A) (k : Z) (x : A) :
  py_setitem l k x = match py_pos (length l) k with
                     | Some i => Ok (<[i := x]> l)
                     | None => Raise IndexError
                     end.
Proof. unfold py_setitem, py_pos. by destruct (_ && _). Qed.

Lemma py_pos_Some (n : nat) (k : Z) (i : nat) :
  py_pos n k = Some i
  ↔ (i < n)%nat ∧ (k = Z.of_nat i ∨ k = Z.of_nat i - Z.of_nat n).
Proof.
  unfold py_pos. destruct (Z.ltb_spec k 0) as [Hneg|Hpos].
  - destruct (Z.leb_spec 0 (k + Z.of_nat n)), (Z.ltb_spec (k + Z.of_nat n) (Z.of_nat n));
      simpl; (split; [intros Heq; simplify_eq; lia
                     |intros [Hi [Hk|Hk]]; first [lia|f_equal; lia]]).
  - destruct (Z.leb_spec 0 k), (Z.ltb_spec k (Z.of_nat n));
      simpl; (split; [intros Heq; simplify_eq; lia
                     |intros [Hi [Hk|Hk]]; first [lia|f_equal; lia]]).
Qed.

Lemma py_pos_None (n : nat) (k : Z) :
  py_pos n k = None ↔ ¬ (- Z.of_nat n ≤ k < Z.of_nat n).
Proof.
  unfold py_pos. destruct (Z.ltb_spec k 0) as [Hneg|Hpos].
  - destruct (Z.leb_spec 0 (k + Z.of_nat n)), (Z.ltb_spec (k + Z.of_nat n) (Z.of_nat n));
      simpl; (split; [intros Heq; simplify_eq; lia|intros Hr; first [done|lia]]).
  - destruct (Z.leb_spec 0 k), (Z.ltb_spec k (Z.of_nat n));
      simpl; (split; [intros Heq; simplify_eq; lia|intros Hr; first [done|lia]]).
Qed.

Lemma py_pos_in_range (n : nat) (k : Z) :
  - Z.of_nat n ≤ k < Z.of_nat n → ∃ i, py_pos n k = Some i.
Proof.
  intros Hk. destruct (py_pos n k) as [i|] eqn:E; [by exists i|].
  apply py_pos_None in E. lia.
Qed.

(** ** Accessors at any Python index *)

Section AccessorsAtIndex.
Context {elt reader : Type}.
Implicit Types (self : BlockTTtensor (elt:=elt) reader) (Uk : ndarray elt).

Lemma ComponentTensor_native self (k order : Z) :
  (order ≠ 1 ∧ order ≠ 2) ∨ k = root self →
  ComponentTensor self k order = py_index (U self) k.
Proof.
  intros H. unfold ComponentTensor.
  destruct (Z.eqb_spec order 1), (Z.eqb_spec order 2), (Z.eqb_spec k (root self));
    simpl; try done; lia.
Qed.

Lemma ComponentTensor_nonroot self (k : Z) Uk :
  py_index (U self) k = Ok Uk → k ≠ root self →
  ComponentTensor self k 1
  = (d0 <~ py_index (shape Uk) 0; d1 <~ py_index (shape Uk) 1;
     d2 <~ py_index (shape Uk) 2; np_reshape Uk [(d0 * d1)%nat; d2])
  ∧ ComponentTensor self k 2
    = (d0 <~ py_index (shape Uk) 0; d1 <~ py_index (shape Uk) 1;
       d2 <~ py_index (shape Uk) 2; np_reshape Uk [d0; (d1 * d2)%nat]).
Proof.
  intros HU Hk. unfold ComponentTensor, GetRankTriple.
  destruct (Z.eqb_spec k (root self)) as [?|_]; [done|].
  simpl. rewrite HU. simpl. done.
Qed.

Lemma ComponentTensor_ext self self' (k order : Z) :
  root self' = root self → py_index (U self') k = py_index (U self) k →
  ComponentTensor self' k order = ComponentTensor self k order.
Proof.
  intros Hr HU. unfold ComponentTensor, GetRankTriple. by rewrite Hr, HU.
Qed.

(** X4. [SetInterface] followed by [GetInterface]. At a Python index within
    the interface list (negative ones counting from the end) the setter
    succeeds, the getter at the same index returns the reader just stored,
    the list keeps its length, the getter at every index denoting another
    position returns what it returned before, and no other attribute
    changes; at an index outside the list the setter raises IndexError
    (the list is never extended). *)
Theorem SetInterface_GetInterface self (k : Z) (intf : reader) :
  let n := Z.of_nat (length (interfaces self)) in
  (- n ≤ k < n →
     ∃ self',
       SetInterface self k intf = Ok self'
       ∧ GetInterface self' k = Ok intf
       ∧ length (interfaces self') = length (interfaces self)
       ∧ (∀ j : Z, j ≠ k → j ≠ k + n → j ≠ k - n →
            GetInterface self' j = GetInterface self j)
       ∧ U self' = U self ∧ basis self' = basis self ∧ R self' = R self
       ∧ root self' = root self ∧ d self' = d self ∧ M self' = M self
       ∧ tensordir self' = tensordir self)
  ∧ (¬ (- n ≤ k < n) → SetInterface self k intf = Raise IndexError).
Proof.
  cbv zeta. split.
  - intros Hk. destruct (py_pos_in_range _ _ Hk) as [i Hi].
    pose proof (proj1 (py_pos_Some _ _ _) Hi) as [Hlt Hki].
    unfold SetInterface, GetInterface. rewrite py_setitem_pos, Hi. simpl.
    eexists. split; [reflexivity|]. simpl.
    split.
    { rewrite py_index_pos, length_insert, Hi.
      by rewrite list_lookup_insert_eq. }
    split; [apply length_insert|].
    split; [|done].
    intros j Hj1 Hj2 Hj3. rewrite !py_index_pos, length_insert.
    destruct (py_pos (length (interfaces self)) j) as [i'|] eqn:Hi'; [|done].
    pose proof (proj1 (py_pos_Some _ _ _) Hi') as [Hlt' Hji].
    rewrite list_lookup_insert_ne by lia. done.
  - intros Hk. apply py_pos_None in Hk.
    unfold SetInterface. by rewrite py_setitem_pos, Hk.
Qed.

(** X5. [SetComponentTensor] followed by the component accessors. At a
    Python index within the component list the setter succeeds and, at the
    same index: [ComponentTensor] with an order other than 1 and 2 (or at
    the root, with any order) returns the new array, [GetRankTriple]
    returns its shape (its first three extents at the root), and at a
    coordinate other than the root a new array of shape (a,b,c) is
    returned unfolded for orders 1 and 2. Indices denoting other positions
    are served as before; an index outside the list raises IndexError. *)
Theorem SetComponentTensor_ComponentTensor self (k : Z) (Unew : ndarray elt) :
  let n := Z.of_nat (length (U self)) in
  (- n ≤ k < n →
     ∃ self',
       SetComponentTensor self k Unew = Ok self'
       ∧ (∀ order : Z, (order ≠ 1 ∧ order ≠ 2) ∨ k = root self →
            ComponentTensor self' k order = Ok Unew)
       ∧ GetRankTriple self' k
         = Ok (if k =? root self then take 3 (shape Unew) else shape Unew)
       ∧ (k ≠ root self → ∀ a b c : nat, shape Unew = [a; b; c] →
            ComponentTensor self' k 1 = Ok (mk_ndarray [(a * b)%nat; c] (data Unew))
            ∧ ComponentTensor self' k 2 = Ok (mk_ndarray [a; (b * c)%nat] (data Unew)))
       ∧ (∀ j order : Z, j ≠ k → j ≠ k + n → j ≠ k - n →
            ComponentTensor self' j order = ComponentTensor self j order))
  ∧ (¬ (- n ≤ k < n) → SetComponentTensor self k Unew = Raise IndexError).
Proof.
  cbv zeta. split.
  - intros Hk. destruct (py_pos_in_range _ _ Hk) as [i Hi].
    pose proof (proj1 (py_pos_Some _ _ _) Hi) as [Hlt Hki].
    unfold SetComponentTensor. rewrite py_setitem_pos, Hi. simpl.
    eexists. split; [reflexivity|].
    set (self' := mk_BlockTTtensor _ _ _ _ _ _ _ _).
    assert (Hget : py_index (U self') k = Ok Unew).
    { simpl. rewrite py_index_pos, length_insert, Hi.
      by rewrite list_lookup_insert_eq. }
    split.
    { intros order Ho. by rewrite ComponentTensor_native. }
    split.
    { unfold GetRankTriple. rewrite Hget. simpl.
      by destruct (k =? root self). }
    split.
    { intros Hroot a b c Hs.
      destruct (ComponentTensor_nonroot self' k Unew Hget Hroot) as [-> ->].
      rewrite Hs. simpl. split; [by apply reshape_left|by apply reshape_right]. }
    intros j order Hj1 Hj2 Hj3. apply ComponentTensor_ext; [done|].
    simpl. rewrite !py_index_pos, length_insert.
    destruct (py_pos (length (U self)) j) as [i'|] eqn:Hi'; [|done].
    pose proof (proj1 (py_pos_Some _ _ _) Hi') as [Hlt' Hji].
    rewrite list_lookup_insert_ne by lia. done.
  - intros Hk. apply py_pos_None in Hk.
    unfold SetComponentTensor. by rewrite py_setitem_pos, Hk.
Qed.

Lemma ComponentTensor_unfolds_aux self (k : Z) Uk (a b c : nat) (tl : list nat) :
  py_index (U self) k = Ok Uk → k ≠ root self → shape Uk = a :: b :: c :: tl →
  ((a * b * c * prod_list tl = a * b * c)%nat →
     ComponentTensor self k 1 = Ok (mk_ndarray [(a * b)%nat; c] (data Uk))
     ∧ ComponentTensor self k 2 = Ok (mk_ndarray [a; (b * c)%nat] (data Uk)))
  ∧ ((a * b * c * prod_list tl ≠ a * b * c)%nat →
     ComponentTensor self k 1 = Raise ValueError
     ∧ ComponentTensor self k 2 = Raise ValueError).
Proof.
  intros HU Hk Hs. destruct (ComponentTensor_nonroot self k Uk HU Hk) as [-> ->].
  rewrite Hs.
  assert (H0 : py_index (a :: b :: c :: tl) 0 = Ok a)
    by exact (py_index_lookup (a :: b :: c :: tl) 0 a eq_refl).
  assert (H1 : py_index (a :: b :: c :: tl) 1 = Ok b)
    by exact (py_index_lookup (a :: b :: c :: tl) 1 b eq_refl).
  assert (H2 : py_index (a :: b :: c :: tl) 2 = Ok c)
    by exact (py_index_lookup (a :: b :: c :: tl) 2 c eq_refl).
  rewrite H0, H1, H2.
  simpl. unfold np_reshape, size. rewrite Hs. simpl.
  split; intros Hsz.
  - replace (a * b * (c * 1) =? a * (b * (c * prod_list tl)))%nat with true
      by (symmetry; apply Nat.eqb_eq; lia).
    replace (a * (b * c * 1) =? a * (b * (c * prod_list tl)))%nat with true
      by (symmetry; apply Nat.eqb_eq; lia).
    done.
  - replace (a * b * (c * 1) =? a * (b * (c * prod_list tl)))%nat with false
      by (symmetry; apply Nat.eqb_neq; lia).
    replace (a * (b * c * 1) =? a * (b * (c * prod_list tl)))%nat with false
      by (symmetry; apply Nat.eqb_neq; lia).
    done.
Qed.

(** X7. When [ComponentTensor] can unfold. At an index other than the root
    that denotes a component, orders 1 and 2 raise IndexError if the
    component has fewer than three axes; if its shape is (a,b,c,...) they
    return it with shape (a*b, c) and (a, b*c) exactly when the extents
    after the third multiply the size by one (all 1, or the array empty),
    and raise ValueError otherwise. *)
Theorem ComponentTensor_unfolds_iff self (k : Z) Uk :
  py_index (U self) k = Ok Uk → k ≠ root self →
  ((length (shape Uk) < 3)%nat →
     ComponentTensor self k 1 = Raise IndexError
     ∧ ComponentTensor self k 2 = Raise IndexError)
  ∧ ∀ (a b c : nat) (tl : list nat), shape Uk = a :: b :: c :: tl →
      ((a * b * c * prod_list tl = a * b * c)%nat →
         ComponentTensor self k 1 = Ok (mk_ndarray [(a * b)%nat; c] (data Uk))
         ∧ ComponentTensor self k 2 = Ok (mk_ndarray [a; (b * c)%nat] (data Uk)))
      ∧ ((a * b * c * prod_list tl ≠ a * b * c)%nat →
         ComponentTensor self k 1 = Raise ValueError
         ∧ ComponentTensor self k 2 = Raise ValueError).
Proof.
  intros HU Hk. split.
  - destruct (ComponentTensor_nonroot self k Uk HU Hk) as [-> ->].
    intros Hlt. destruct (shape Uk) as [|a [|b [|c ?]]]; simpl in Hlt; try lia; done.
  - intros a b c tl Hs. by apply ComponentTensor_unfolds_aux.
Qed.

(** X8. The root is exempt from unfolding only under its own index. With
    the root at coordinate [r] of [n] components and a root component of
    shape (a,b,c,m): [ComponentTensor(r, 1)] returns it as stored, while
    the same component asked for as [ComponentTensor(r - n, 1)] is
    reshaped: this raises ValueError when the fourth axis changes the size
    and returns shape (a*b, c) when it does not. *)
Theorem root_alias_is_unfolded self (r : nat) Ur (a b c m : nat) :
  root self = Z.of_nat r → U self !! r = Some Ur → shape Ur = [a; b; c; m] →
  let alias := Z.of_nat r - Z.of_nat (length (U self)) in
  ComponentTensor self (root self) 1 = Ok Ur
  ∧ ComponentTensor self alias 0 = Ok Ur
  ∧ ((a * b * c * m ≠ a * b * c)%nat →
       ComponentTensor self alias 1 = Raise ValueError
       ∧ ComponentTensor self alias 2 = Raise ValueError)
  ∧ ((a * b * c * m = a * b * c)%nat →
       ComponentTensor self alias 1 = Ok (mk_ndarray [(a * b)%nat; c] (data Ur))
       ∧ ComponentTensor self alias 2 = Ok (mk_ndarray [a; (b * c)%nat] (data Ur))).
Proof.
  intros Hroot HUr Hs. cbv zeta.
  pose proof (lookup_lt_Some _ _ _ HUr) as Hlt.
  assert (Hget : py_index (U self) (Z.of_nat r - Z.of_nat (length (U self))) = Ok Ur).
  { rewrite py_index_pos.
    rewrite (proj2 (py_pos_Some (length (U self)) _ r)) by (split; [done|by right]).
    by rewrite HUr. }
  split.
  { rewrite ComponentTensor_native by (by right).
    rewrite Hroot. by apply py_index_lookup. }
  split.
  { rewrite ComponentTensor_native by (left; lia). done. }
  destruct (ComponentTensor_unfolds_aux self _ Ur a b c [m] Hget) as [Hok Hbad];
    [lia|done|].
  simpl in Hok, Hbad. rewrite Nat.mul_1_r in Hok, Hbad. done.
Qed.

(** X6. The rank vector goes stale. Replacing the component of a coordinate
    [k] other than the root by an array of shape (a,b,c) makes
    [GetRankTriple(k)] answer (a,b,c), while [GetRanks(k)] still answers
    the entry [r] the rank vector held before, whether or not [c = r]. *)
Theorem ranks_go_stale self (k : nat) (Unew : ndarray elt) (a b c r : nat) :
  (k < length (U self))%nat → Z.of_nat k ≠ root self →
  R self !! k = Some r → shape Unew = [a; b; c] →
  ∃ self',
    SetComponentTensor self (Z.of_nat k) Unew = Ok self'
    ∧ GetRankTriple self' (Z.of_nat k) = Ok [a; b; c]
    ∧ GetRanks self' (Some (Z.of_nat k)) = Ok (OneRank r)
    ∧ GetRanks self (Some (Z.of_nat k)) = Ok (OneRank r).
Proof.
  intros Hk Hroot HR Hs. unfold SetComponentTensor.
  rewrite (py_setitem_lookup _ _ _ Hk). simpl. eexists. split; [reflexivity|].
  split.
  - unfold GetRankTriple. simpl.
    destruct (Z.eqb_spec (Z.of_nat k) (root self)) as [?|_]; [done|].
    rewrite (py_index_lookup _ k Unew) by (by apply list_lookup_insert_eq).
    simpl. by rewrite Hs.
  - assert (HG : ∀ s : BlockTTtensor (elt:=elt) reader, R s = R self →
              GetRanks s (Some (Z.of_nat k)) = Ok (OneRank r)).
    { intros s HRs. unfold GetRanks. simpl.
      destruct (Z.geb_spec (Z.of_nat k) 0) as [_|?]; [|lia]. simpl.
      by rewrite HRs, (py_index_lookup _ _ _ HR). }
    split; by apply HG.
Qed.

(** X10. The matrix the second loop hands to the primitives. For a
    well-formed component of shape (a,b,c) at a coordinate other than the
    root, the transpose of the order-2 unfolding has shape (b*c, a), is
    well formed, and holds at row [j*c+l], column [i] the entry (i,j,l) of
    the component. *)
Theorem right_matrix_entries self (k : nat) (Ck : ndarray elt) (a b c : nat) :
  U self !! k = Some Ck → Z.of_nat k ≠ root self →
  wf_ndarray Ck → shape Ck = [a; b; c] →
  ∃ Uk,
    ComponentTensor self (Z.of_nat k) 2 = Ok Uk
    ∧ shape (transpose Uk) = [(b * c)%nat; a]
    ∧ wf_ndarray (transpose Uk)
    ∧ ∀ i j l : nat, (i < a)%nat → (j < b)%nat → (l < c)%nat →
        item (transpose Uk) [(j * c + l)%nat; i] = item Ck [i; j; l].
Proof.
  intros HU Hroot Hwf Hs.
  set (Uk := mk_ndarray [a; (b * c)%nat] (data Ck)).
  assert (HwfU : wf_ndarray Uk).
  { unfold wf_ndarray, size in *. rewrite Hs in Hwf. simpl in *. lia. }
  exists Uk. split; [by apply (ComponentTensor_right self k Ck a b c)|].
  split; [done|]. split; [by apply wf_transpose|].
  intros i j l Hi Hj Hl. rewrite item_transpose; [|done|].
  - change (reverse [(j * c + l)%nat; i]) with [i; (j * c + l)%nat].
    by apply item_unfold_right.
  - change (reverse (shape Uk)) with [(b * c)%nat; a].
    repeat constructor; [nia|done].
Qed.

End AccessorsAtIndex.

(** ** The sweep and the constructor on any input *)

Lemma length_range (n : Z) : Z.of_nat (length (range n)) = Z.max 0 n.
Proof. unfold range. rewrite length_seqZ. lia. Qed.

Lemma length_range_down (start stop : Z) :
  Z.of_nat (length (range_down start stop)) = Z.max 0 (start - stop).
Proof. unfold range_down. rewrite length_fmap, length_seq. lia. Qed.

Lemma py_index_insert_ne {A} (l : list A) (i : nat) (x : A) (k : Z) :
  0 ≤ k → k ≠ Z.of_nat i → py_index (<[i := x]> l) k = py_index l k.
Proof.
  intros Hk Hne. rewrite !py_index_pos, length_insert.
  destruct (py_pos (length l) k) as [i'|] eqn:Hi'; [|done].
  pose proof (proj1 (py_pos_Some _ _ _) Hi') as [Hlt Hki].
  rewrite list_lookup_insert_ne by lia. done.
Qed.

Section Construction.
Context {elt reader world : Type}.
Variable ApplyLinearTransform :
  reader → ndarray elt → string → world → reader * world.
Variable DoubleProducts :
  reader → reader → string → ndarray elt → world → reader * world.
Implicit Types (self : BlockTTtensor (elt:=elt) reader) (w : world)
  (l : list reader).

Local Abbreviation left_step := (left_step ApplyLinearTransform DoubleProducts).
Local Abbreviation right_step := (right_step ApplyLinearTransform DoubleProducts).
Local Abbreviation ComputeInterfaces :=
  (ComputeInterfaces ApplyLinearTransform DoubleProducts).
Local Abbreviation __init__ := (__init__ ApplyLinearTransform DoubleProducts).

Lemma for_each_ext {S : Type} (body1 body2 : Z → S → io world S) ks :
  (∀ k st w, k ∈ ks → body1 k st w = body2 k st w) →
  ∀ st w, for_each body1 ks st w = for_each body2 ks st w.
Proof.
  induction ks as [|k ks IH]; intros Hb st w; [done|].
  simpl. unfold bind. rewrite (Hb k st w) by (by left).
  destruct (body2 k st w) as [[st'|e] w']; [|done].
  apply IH. intros k' st'' w'' Hk'. apply Hb. by right.
Qed.

Lemma left_step_length self k Y il w Y' il' w' :
  left_step self k (Y, il) w = (Ok (Y', il'), w') → length il' = S (length il).
Proof.
  unfold left_step, bind, lift, ret, call.
  destruct (ComponentTensor self k 1); [|done].
  destruct (ComponentBasis self k); [|done].
  destruct (k =? 0).
  - destruct (ApplyLinearTransform _ _ _ w). intros [= _ <- _].
    rewrite length_app. simpl. lia.
  - destruct Y; [|done].
    destruct (DoubleProducts _ _ _ _ w). intros [= _ <- _].
    rewrite length_app. simpl. lia.
Qed.

Lemma right_step_length self k Y bl w Y' bl' w' :
  right_step self k (Y, bl) w = (Ok (Y', bl'), w') → length bl' = S (length bl).
Proof.
  unfold right_step, bind, lift, ret, call.
  destruct (ComponentTensor self (k + 1) 2); [|done].
  destruct (ComponentBasis self (k + 1)); [|done].
  destruct (k =? d self - 2).
  - destruct (ApplyLinearTransform _ _ _ w). by intros [= _ <- _].
  - destruct Y; [|done].
    destruct (DoubleProducts _ _ _ _ w). by intros [= _ <- _].
Qed.

Lemma loop_length (body : Z → option reader * list reader
                          → io world (option reader * list reader)) :
  (∀ k Y il w Y' il' w',
     body k (Y, il) w = (Ok (Y', il'), w') → length il' = S (length il)) →
  ∀ ks Y il w Y' il' w',
    for_each body ks (Y, il) w = (Ok (Y', il'), w') →
    length il' = (length il + length ks)%nat.
Proof.
  intros Hbody ks. induction ks as [|k ks IH]; intros Y il w Y' il' w'.
  - simpl. unfold ret. intros [= _ <- _]. lia.
  - rewrite for_each_cons.
    destruct (body k (Y, il) w) as [[[Y1 il1]|e] w1] eqn:Hstep; [|done].
    intros Hrest. apply IH in Hrest. apply Hbody in Hstep. simpl. lia.
Qed.

Lemma sweep_length self w l w' :
  ComputeInterfaces self w = (Ok l, w') →
  Z.of_nat (length l) = Z.max 0 (root self) + Z.max 0 (d self - 1 - root self).
Proof.
  unfold ComputeInterfaces, bind, ret.
  destruct (for_each _ (range _) _ w) as [[[Y1 il]|e] w1] eqn:HL; [|done].
  destruct (for_each _ (range_down _ _) _ w1) as [[[Y2 bl]|e] w2] eqn:HR; [|done].
  intros [= <- _].
  apply (loop_length _ (left_step_length self)) in HL.
  apply (loop_length _ (right_step_length self)) in HR.
  pose proof (length_range (root self)).
  pose proof (length_range_down (d self - 2) (root self - 1)).
  rewrite length_app. simpl in *. lia.
Qed.

(** X12. The length of the list the sweep returns. Whenever
    [ComputeInterfaces] returns a list, on any instance, the list has one
    reader for each value of the first loop and one for each value of the
    second: max(0, root) + max(0, d-1-root) readers, which is d-1 when the
    root is one of the coordinates 0..d-1. *)
Theorem ComputeInterfaces_length self w l w' :
  ComputeInterfaces self w = (Ok l, w') →
  Z.of_nat (length l) = Z.max 0 (root self) + Z.max 0 (d self - 1 - root self)
  ∧ (0 ≤ root self ≤ d self - 1 → Z.of_nat (length l) = d self - 1).
Proof.
  intros Hrun. apply sweep_length in Hrun. split; [done|]. lia.
Qed.

Lemma py_index_Ok_inv {A} (l : list A) (k : Z) (x : A) :
  py_index l k = Ok x → ∃ i, py_pos (length l) k = Some i ∧ l !! i = Some x.
Proof.
  rewrite py_index_pos. destruct (py_pos (length l) k) as [i|]; [|done].
  destruct (l !! i) as [y|] eqn:Hy; [|done]. intros [= <-]. by exists i.
Qed.

Lemma extract_ranks_length (U0 : list (ndarray elt)) ks R0 R1 :
  extract_ranks U0 ks R0 = Ok R1 → length R1 = length R0.
Proof.
  revert R0. induction ks as [|k ks IH]; intros R0; simpl.
  - by intros [= <-].
  - destruct (py_index U0 k) as [Uk|]; [|done]. simpl.
    destruct (py_index (shape Uk) 2) as [r|]; [|done]. simpl.
    rewrite py_setitem_pos. destruct (py_pos (length R0) k) as [i|]; [|done].
    simpl. intros H. apply IH in H. by rewrite length_insert in H.
Qed.

(** What a returning constructor went through. *)
Lemma init_inv U0 basis0 tensordir0 w self w' :
  __init__ U0 basis0 tensordir0 w = (Ok self, w') →
  ∃ M1 R1 intf,
    read_M U0 = Ok M1
    ∧ extract_ranks U0 (range (Z.of_nat (length U0) - 1))
        (replicate (Z.to_nat (Z.of_nat (length U0) - 1)) 0%nat) = Ok R1
    ∧ ComputeInterfaces
        (mk_BlockTTtensor U0 basis0 (default "./"%string tensordir0)
           (Z.of_nat (length U0)) 0 M1 R1 []) w = (Ok intf, w')
    ∧ self = mk_BlockTTtensor U0 basis0 (default "./"%string tensordir0)
               (Z.of_nat (length U0)) 0 M1 R1 intf.
Proof.
  unfold __init__, bind, lift, ret.
  destruct (read_M U0) as [M1|]; [|done].
  unfold np_zeros. destruct (Z.of_nat (length U0) - 1 <? 0); [done|].
  destruct (extract_ranks _ _ _) as [R1|]; [|done].
  destruct (ComputeInterfaces _ w) as [[intf|?] w1] eqn:Hrun; [|done].
  intros [= <- <-]. by exists M1, R1, intf.
Qed.

(** X1. What every constructed instance satisfies. Whatever the input, if
    the constructor returns an instance then: it stores the component list
    and the basis list it was given, its root is 0, its dimension is the
    number of components and is at least 1, its function count is the
    fourth extent of the first component, its rank vector and its
    interface list both have d-1 entries, and [GetInterface(k)] returns a
    reader exactly for the indices -(d-1) .. d-2. *)
Theorem init_invariants U0 basis0 tensordir0 w self w' :
  __init__ U0 basis0 tensordir0 w = (Ok self, w') →
  U self = U0 ∧ basis self = basis0
  ∧ root self = 0 ∧ d self = Z.of_nat (length U0) ∧ 1 ≤ d self
  ∧ (∃ Ufirst, U0 !! 0%nat = Some Ufirst ∧ shape Ufirst !! 3%nat = Some (M self))
  ∧ Z.of_nat (length (R self)) = d self - 1
  ∧ Z.of_nat (length (interfaces self)) = d self - 1
  ∧ ∀ k : Z, (∃ Y, GetInterface self k = Ok Y) ↔ - (d self - 1) ≤ k < d self - 1.
Proof.
  intros Hinit.
  destruct (init_inv _ _ _ _ _ _ Hinit) as (M1 & R1 & intf & HM & HR & Hrun & ->).
  simpl. do 4 (split; [done|]).
  unfold read_M in HM.
  destruct (py_index U0 0) as [Ufirst|] eqn:HU0; [|done]. simpl in HM.
  apply py_index_Ok_inv in HU0 as (i & Hi & HUi).
  apply py_pos_Some in Hi as [Hlt Hi].
  assert (i = 0%nat) as -> by lia.
  apply py_index_Ok_inv in HM as (j & Hj & HMj).
  apply py_pos_Some in Hj as [Hltj Hj].
  assert (j = 3%nat) as -> by lia.
  split; [lia|]. split; [by exists Ufirst|].
  apply extract_ranks_length in HR. rewrite length_replicate in HR.
  split; [lia|].
  apply sweep_length in Hrun. simpl in Hrun.
  assert (Hlen : Z.of_nat (length intf) = Z.of_nat (length U0) - 1) by lia.
  split; [done|].
  intros k. unfold GetInterface. simpl. rewrite py_index_pos. split.
  - intros [Y HY]. destruct (py_pos (length intf) k) as [p|] eqn:Hp; [|done].
    apply py_pos_Some in Hp. lia.
  - intros Hk. destruct (py_pos_in_range (length intf) k) as [p Hp]; [lia|].
    rewrite Hp. pose proof (proj1 (py_pos_Some _ _ _) Hp) as [Hltp _].
    destruct (lookup_lt_is_Some_2 intf p Hltp) as [Y HY]. rewrite HY. by exists Y.
Qed.

(** X2. The shortest chains. With no component the constructor raises
    IndexError before anything else happens. With a single component of at
    least four axes it returns an instance without calling a primitive:
    the rank vector and the interface list are empty, so [GetRanks], with
    or without an index, and [GetInterface] raise IndexError. *)
Theorem degenerate_chains :
  (∀ basis0 tensordir0 w,
     __init__ [] basis0 tensordir0 w = (Raise IndexError, w))
  ∧ (∀ (U0 : ndarray elt) basis0 tensordir0 w,
       (4 ≤ length (shape U0))%nat →
       ∃ self,
         __init__ [U0] basis0 tensordir0 w = (Ok self, w)
         ∧ d self = 1 ∧ R self = [] ∧ interfaces self = []
         ∧ shape U0 !! 3%nat = Some (M self)
         ∧ (∀ k, GetRanks self k = Raise IndexError)
         ∧ (∀ k, GetInterface self k = Raise IndexError)).
Proof.
  split; [done|].
  intros U0 basis0 tensordir0 w H4.
  destruct (lookup_lt_is_Some_2 (shape U0) 3) as [m Hm]; [lia|].
  assert (HM : read_M [U0] = Ok m).
  { rewrite read_M_cons. exact (py_index_lookup (shape U0) 3 m Hm). }
  eexists. split.
  { unfold __init__, bind, lift, ret. rewrite HM. reflexivity. }
  simpl. do 3 (split; [done|]). split; [done|]. split.
  - intros k. unfold GetRanks. cbv zeta. simpl d. simpl R.
    change (Z.of_nat 1 - 2) with (-1). rewrite py_index_nil.
    destruct (Z.geb_spec (default (-1) k) 0), (Z.leb_spec (default (-1) k) (-1));
      simpl; first [done|lia].
  - intros k. unfold GetInterface. simpl. apply py_index_nil.
Qed.

(** The rank derivation on a chain of the documented shapes. *)
Lemma ranks_of_chain (U0 : ndarray elt) rest :
  length (shape U0) = 4%nat →
  Forall (λ Uk, length (shape Uk) = 3%nat) rest →
  ∃ R1,
    extract_ranks (U0 :: rest) (range (Z.of_nat (length (U0 :: rest)) - 1))
      (replicate (Z.to_nat (Z.of_nat (length (U0 :: rest)) - 1)) 0%nat) = Ok R1
    ∧ length R1 = length rest
    ∧ ∀ (k : nat) Uk, (k < length rest)%nat → (U0 :: rest) !! k = Some Uk →
        ∃ r, shape Uk !! 2%nat = Some r ∧ R1 !! k = Some (float64_of_int r).
Proof.
  intros H4 H3. rewrite Forall_lookup in H3.
  replace (Z.of_nat (length (U0 :: rest)) - 1) with (Z.of_nat (length rest))
    by (simpl; lia).
  rewrite Nat2Z.id.
  apply extract_ranks_run; [lia|simpl; lia|].
  intros [|k] Uk Hk HUk; simpl in HUk.
  - simplify_eq. lia.
  - rewrite (H3 k Uk HUk). lia.
Qed.

Lemma extract_ranks_inv (U0 : list (ndarray elt)) (n : nat) R0 R1 :
  extract_ranks U0 (range (Z.of_nat n)) R0 = Ok R1 →
  ∀ k : nat, (k < n)%nat →
    ∃ Uk r, U0 !! k = Some Uk ∧ shape Uk !! 2%nat = Some r
            ∧ R1 !! k = Some (float64_of_int r).
Proof.
  revert R1. induction n as [|n IH]; intros R1 Hrun k Hk; [lia|].
  rewrite range_S, extract_ranks_snoc in Hrun.
  destruct (extract_ranks U0 (range (Z.of_nat n)) R0) as [R'|] eqn:HR'; [|done].
  simpl in Hrun.
  destruct (py_index U0 (Z.of_nat n)) as [Un|] eqn:HUn; [|done]. simpl in Hrun.
  destruct (py_index (shape Un) 2) as [r|] eqn:Hr; [|done]. simpl in Hrun.
  rewrite py_setitem_pos in Hrun.
  destruct (py_pos (length R') (Z.of_nat n)) as [i|] eqn:Hi; [|done].
  injection Hrun as <-.
  apply py_pos_Some in Hi as [Hlt Hi]. assert (i = n) as -> by lia.
  destruct (decide (k = n)) as [->|Hne].
  - apply py_index_Ok_inv in HUn as (j & Hj & HUj).
    apply py_pos_Some in Hj as [Hjlt Hj]. assert (j = n) as -> by lia.
    apply py_index_Ok_inv in Hr as (j & Hj' & Hrj).
    apply py_pos_Some in Hj' as [Hjlt' Hj']. assert (j = 2%nat) as -> by lia.
    exists Un, r. do 2 (split; [done|]). by apply list_lookup_insert_eq.
  - destruct (IH R' eq_refl k) as (Uk & r' & HUk & Hr' & HRk); [lia|].
    exists Uk, r'. do 2 (split; [done|]). by rewrite list_lookup_insert_ne.
Qed.

(** X3. Ranks and rank triples of a constructed instance. Whatever the
    input, if the constructor returns an instance then for every bond [k]
    [GetRankTriple(k)] has a third entry [r] and [GetRanks(k)] is [r] as
    stored in the float64 rank vector, which is [r] itself when
    [r <= 2^53]; and at the root [GetRankTriple] returns the first three
    extents of the first component, whose fourth is [M]. *)
Theorem ranks_agree_with_triples U0 basis0 tensordir0 w self w' :
  __init__ U0 basis0 tensordir0 w = (Ok self, w') →
  (∀ k : nat, Z.of_nat k < d self - 1 →
     ∃ (t : list nat) (r : nat),
       GetRankTriple self (Z.of_nat k) = Ok t ∧ t !! 2%nat = Some r
       ∧ GetRanks self (Some (Z.of_nat k)) = Ok (OneRank (float64_of_int r))
       ∧ (Z.of_nat r ≤ 2 ^ 53 →
          GetRanks self (Some (Z.of_nat k)) = Ok (OneRank r)))
  ∧ ∃ (a b c : nat) (tl : list nat) Ufirst,
      GetRankTriple self 0 = Ok [a; b; c]
      ∧ U0 !! 0%nat = Some Ufirst
      ∧ shape Ufirst = a :: b :: c :: M self :: tl.
Proof.
  intros Hinit.
  destruct (init_inv _ _ _ _ _ _ Hinit) as (M1 & R1 & intf & HM & HR & Hrun & ->).
  unfold read_M in HM.
  destruct (py_index U0 0) as [Ufirst|] eqn:HU0; [|done]. simpl in HM.
  pose proof HU0 as HU0'.
  apply py_index_Ok_inv in HU0' as (i & Hi & HUi).
  apply py_pos_Some in Hi as [Hlt Hi]. assert (i = 0%nat) as -> by lia.
  apply py_index_Ok_inv in HM as (j & Hj & HMj).
  apply py_pos_Some in Hj as [Hltj Hj]. assert (j = 3%nat) as -> by lia.
  destruct (shape Ufirst) as [|a [|b [|c [|m tl]]]] eqn:Hs; try done.
  simpl in HMj. injection HMj as ->.
  split.
  - intros k Hk. simpl in Hk.
    replace (Z.of_nat (length U0) - 1) with (Z.of_nat (length U0 - 1)) in HR by lia.
    destruct (extract_ranks_inv _ _ _ _ HR k) as (Uk & r & HUk & Hr & HRk); [lia|].
    assert (HG : GetRanks (mk_BlockTTtensor U0 basis0 (default "./"%string tensordir0)
                   (Z.of_nat (length U0)) 0 M1 R1 intf) (Some (Z.of_nat k))
                 = Ok (OneRank (float64_of_int r))).
    { unfold GetRanks. simpl.
      destruct (Z.geb_spec (Z.of_nat k) 0) as [_|?]; [|lia]. simpl.
      by rewrite (py_index_lookup _ _ _ HRk). }
    assert (HT : ∃ t, GetRankTriple (mk_BlockTTtensor U0 basis0
                        (default "./"%string tensordir0)
                        (Z.of_nat (length U0)) 0 M1 R1 intf) (Z.of_nat k) = Ok t
                      ∧ t !! 2%nat = Some r).
    { unfold GetRankTriple. simpl root. simpl U.
      rewrite (py_index_lookup _ _ _ HUk).
      destruct (Z.of_nat k =? 0); simpl; eexists; (split; [reflexivity|]);
        [|done].
      apply lookup_lt_Some in Hr as Hlt2. rewrite lookup_take_lt by lia. done. }
    destruct HT as (t & HT & Ht). exists t, r.
    do 3 (split; [done|]). intros Hsmall.
    by rewrite HG, (float64_of_int_small r Hsmall).
  - exists a, b, c, tl, Ufirst. split; [|done].
    unfold GetRankTriple. simpl. rewrite HU0. simpl. by rewrite Hs.
Qed.

(** X9. The sweep reads neither the root component nor the cached
    interfaces. On an instance whose root is not negative, replacing the
    root component with [SetComponentTensor], or any cached interface with
    [SetInterface], leaves the outcome of [ComputeInterfaces] (readers
    returned or exception raised, and the world left behind) as it was. *)
Theorem sweep_ignores_root self :
  0 ≤ root self →
  (∀ (Unew : ndarray elt) self' w,
     SetComponentTensor self (root self) Unew = Ok self' →
     ComputeInterfaces self' w = ComputeInterfaces self w)
  ∧ (∀ (k : Z) (intf : reader) self' w,
       SetInterface self k intf = Ok self' →
       ComputeInterfaces self' w = ComputeInterfaces self w).
Proof.
  intros Hroot. split.
  - intros Unew self' w Hset. unfold SetComponentTensor in Hset.
    rewrite py_setitem_pos in Hset.
    destruct (py_pos (length (U self)) (root self)) as [i|] eqn:Hi; [|done].
    simpl in Hset. injection Hset as <-.
    apply py_pos_Some in Hi as [Hlt Hi].
    assert (Hri : root self = Z.of_nat i) by lia. clear Hi.
    set (self' := mk_BlockTTtensor _ _ _ _ _ _ _ _).
    assert (HCT : ∀ k order, 0 ≤ k → k ≠ root self →
              ComponentTensor self' k order = ComponentTensor self k order).
    { intros k order Hk Hne. apply ComponentTensor_ext; [done|].
      simpl. apply py_index_insert_ne; lia. }
    unfold ComputeInterfaces, bind, ret. simpl root. simpl d.
    rewrite (for_each_ext (left_step self') (left_step self)).
    2:{ intros k [Y il] w0 Hk. apply elem_of_range in Hk.
        change (root self') with (root self) in Hk.
        unfold left_step, bind, lift, ret, call.
        rewrite HCT by lia. reflexivity. }
    destruct (for_each _ (range _) _ w) as [[[Y1 il]|e] w1]; [|done].
    rewrite (for_each_ext (right_step self') (right_step self)).
    2:{ intros k [Y bl] w0 Hk. apply elem_of_range_down in Hk.
        change (root self') with (root self) in Hk.
        unfold right_step, bind, lift, ret, call.
        rewrite HCT by lia. reflexivity. }
    done.
  - intros k intf self' w Hset. unfold SetInterface in Hset.
    destruct (py_setitem _ _ _); [|done]. simpl in Hset. injection Hset as <-.
    reflexivity.
Qed.

(** X11. A missing basis source stops the constructor before any call.
    For a chain of at least two components of the documented shapes, given
    fewer basis sources than components, the constructor raises IndexError
    at the first step of the second loop (which asks for the basis source
    of the last coordinate), with the world as it found it. *)
Theorem missing_basis_source (U0 : ndarray elt) rest basis0 tensordir0 w :
  length (shape U0) = 4%nat →
  Forall (λ Uk, length (shape Uk) = 3%nat) rest →
  rest ≠ [] → (length basis0 ≤ length rest)%nat →
  __init__ (U0 :: rest) basis0 tensordir0 w = (Raise IndexError, w).
Proof.
  intros H4 H3 Hne Hbasis.
  destruct (ranks_of_chain U0 rest H4 H3) as (R1 & Hranks & _).
  destruct (shape U0) as [|a0 [|b0 [|c0 [|m [|? ?]]]]] eqn:Hs; try discriminate.
  assert (Hlen : (0 < length rest)%nat) by (destruct rest; [done|simpl; lia]).
  destruct (lookup_lt_is_Some_2 (U0 :: rest) (length rest)) as [Ulast HUl];
    [simpl; lia|].
  assert (H3l : length (shape Ulast) = 3%nat).
  { rewrite Forall_lookup in H3. destruct (length rest) as [|n] eqn:E; [lia|].
    simpl in HUl. by apply (H3 n). }
  destruct (three_axes Ulast H3l) as (a & b & c & HsU).
  unfold __init__, bind, lift, ret. rewrite read_M_cons, Hs.
  change (py_index [a0; b0; c0; m] 3) with (Ok m).
  unfold np_zeros.
  destruct (Z.ltb_spec (Z.of_nat (length (U0 :: rest)) - 1) 0) as [?|_];
    [simpl in *; lia|].
  rewrite Hranks.
  set (self := mk_BlockTTtensor _ _ _ _ _ _ _ _).
  assert (Hrun : ComputeInterfaces self w = (Raise IndexError, w)).
  { unfold ComputeInterfaces, bind, ret. simpl root. simpl d.
    change (range 0) with (@nil Z). simpl for_each. unfold ret.
    rewrite range_down_cons by (simpl; lia). rewrite for_each_cons.
    unfold right_step at 1. unfold bind, lift, ret, call. simpl d.
    replace (Z.of_nat (S (length rest)) - 2 + 1) with (Z.of_nat (length rest))
      by lia.
    rewrite (ComponentTensor_right self (length rest) Ulast a b c);
      [|done|simpl; lia|done].
    unfold ComponentBasis. simpl basis. rewrite py_index_pos.
    rewrite (proj2 (py_pos_None (length basis0) (Z.of_nat (length rest)))) by lia.
    done. }
  by rewrite Hrun.
Qed.

End Construction.

(** ** The calls the sweep makes, as recorded *)

Section Recording.
Implicit Types (self : BlockTTtensor (elt:=Z) Trace.reader) (w : Trace.world).

Local Abbreviation rec_left :=
  (left_step Trace.ApplyLinearTransform Trace.DoubleProducts).
Local Abbreviation rec_right :=
  (right_step Trace.ApplyLinearTransform Trace.DoubleProducts).

Lemma rec_left_step self k st w :
  (∃ e, rec_left self k st w = (Raise e, w))
  ∨ (∃ st', rec_left self k st w = (Ok st', w ++ [interface_path self k])).
Proof.
  destruct st as [Y il]. unfold left_step, bind, lift, ret, call.
  destruct (ComponentTensor self k 1); [|left; eauto].
  destruct (ComponentBasis self k); [|left; eauto].
  destruct (k =? 0); [right; eauto|].
  destruct Y; [right; eauto|left; eauto].
Qed.

Lemma rec_right_step self k st w :
  (∃ e, rec_right self k st w = (Raise e, w))
  ∨ (∃ st', rec_right self k st w = (Ok st', w ++ [interface_path self k])).
Proof.
  destruct st as [Y bl]. unfold right_step, bind, lift, ret, call.
  destruct (ComponentTensor self (k + 1) 2); [|left; eauto].
  destruct (ComponentBasis self (k + 1)); [|left; eauto].
  destruct (k =? d self - 2); [right; eauto|].
  destruct Y; [right; eauto|left; eauto].
Qed.

Lemma rec_loop {St : Type} (body : Z → St → io Trace.world St) (path : Z → string) :
  (∀ k st w, (∃ e, body k st w = (Raise e, w))
             ∨ (∃ st', body k st w = (Ok st', w ++ [path k]))) →
  ∀ ks st w,
    ∃ n : nat,
      (n ≤ length ks)%nat
      ∧ (for_each body ks st w).2 = w ++ (path <$> take n ks)
      ∧ ∀ st' w', for_each body ks st w = (Ok st', w') → n = length ks.
Proof.
  intros Hbody ks. induction ks as [|k ks IH]; intros st w.
  - exists 0%nat. split; [done|]. split; [by rewrite app_nil_r|done].
  - rewrite for_each_cons. destruct (Hbody k st w) as [[e He]|[st1 Hst1]].
    + rewrite He. exists 0%nat. split; [simpl; lia|].
      split; [by rewrite app_nil_r|done].
    + rewrite Hst1. destruct (IH st1 (w ++ [path k])) as (n & Hn & Hw & Hok).
      exists (S n). split; [simpl; lia|].
      split; [by rewrite Hw, <- app_assoc|].
      intros st' w' Hrun. by rewrite (Hok st' w' Hrun).
Qed.

(** X13. The cache paths written, in order. With primitives that record
    the path of every call, the paths recorded by [ComputeInterfaces] on
    any instance are an initial part of: the paths of the bonds
    0, ..., root-1 followed by those of the bonds d-2, ..., root. Nothing
    else is written, no bond twice; when the sweep returns a list the
    whole sequence has been written and the list has as many readers, and
    when it raises, the paths written before remain. *)
Theorem cache_writes_in_order self w :
  let bonds := range (root self) ++ range_down (d self - 2) (root self - 1) in
  ∃ n : nat,
    (n ≤ length bonds)%nat
    ∧ (Trace.sweep self w).2 = w ++ (interface_path self <$> take n bonds)
    ∧ NoDup bonds
    ∧ ∀ l w', Trace.sweep self w = (Ok l, w') →
        n = length bonds ∧ length l = length bonds.
Proof.
  cbv zeta. set (ks1 := range (root self)).
  set (ks2 := range_down (d self - 2) (root self - 1)).
  assert (Hnd : NoDup (ks1 ++ ks2)).
  { apply NoDup_app. split; [apply NoDup_seqZ|].
    split; [|apply NoDup_range_down].
    intros k Hl Hr. apply elem_of_range in Hl. apply elem_of_range_down in Hr. lia. }
  destruct (rec_loop (rec_left self) (interface_path self) (rec_left_step self)
              ks1 (None, []) w) as (n1 & Hn1 & Hw1 & Hok1).
  unfold Trace.sweep, ComputeInterfaces, bind, ret. fold ks1 ks2.
  destruct (for_each (rec_left self) ks1 (None, []) w) as [[[Y1 il]|e] w1] eqn:HL.
  - rewrite (Hok1 _ _ eq_refl) in Hw1. rewrite firstn_all in Hw1. simpl in Hw1.
    destruct (rec_loop (rec_right self) (interface_path self) (rec_right_step self)
                ks2 (Y1, []) w1) as (n2 & Hn2 & Hw2 & Hok2).
    exists (length ks1 + n2)%nat. split; [rewrite length_app; lia|].
    rewrite take_app_add'; [|done]. rewrite fmap_app, app_assoc, <- Hw1.
    destruct (for_each (rec_right self) ks2 (Y1, []) w1) as [[[Y2 bl]|e] w2] eqn:HR.
    + simpl in *. split; [done|]. split; [done|].
      intros l w' [= <- <-]. rewrite (Hok2 _ _ eq_refl), !length_app.
      apply (loop_length _ (left_step_length _ _ self)) in HL.
      apply (loop_length _ (right_step_length _ _ self)) in HR.
      simpl in HL, HR. lia.
    + simpl in *. split; [done|]. split; [done|]. intros l w' [=].
  - exists n1. split; [rewrite length_app; lia|].
    rewrite take_app_le by lia. simpl in *. split; [done|]. split; [done|].
    intros l w' [=].
Qed.

End Recording.

(** ** The class on concrete inputs *)

Module Runs.
Import Trace.

Abbreviation LIN := Trace.ApplyLinearTransform.
Abbreviation DBL := Trace.DoubleProducts.

Lemma rooted2_ready : sweep_ready rooted2.
Proof.
  split; [reflexivity|]. split; [simpl; lia|]. split; [simpl; lia|].
  intros [|[|[|[|k]]]] Uk HUk Hk; simpl in *; simplify_eq; done.
Defined.

Lemma chain4_constructed :
  ∃ self, construct chain4 basis4 (Some "/tmp/c"%string) [] =
            (Ok self, ["/tmp/cInterface2"; "/tmp/cInterface1"; "/tmp/cInterface0"]%string)
          ∧ sweep_ready self ∧ R self = [2; 3; 2]%nat ∧ M self = 3%nat.
Proof.
  eexists. split; [vm_compute; reflexivity|].
  split; [|done].
  split; [reflexivity|]. split; [simpl; lia|]. split; [simpl; lia|].
  intros [|[|[|[|k]]]] Uk HUk Hk; simpl in *; simplify_eq; done.
Qed.

Lemma left_sweep_correct_witness :
  sweep_ready rooted2 ∧ 0 < root rooted2
  ∧ ∃ l ws Y0 Y1 U1,
      sweep rooted2 [] = (Ok l, ws (length l)) ∧ ws 0%nat = []
      ∧ l !! 0%nat = Some Y0 ∧ l !! 1%nat = Some Y1
      ∧ shape U1 = [4; 3]%nat
      ∧ DBL Y0 (Source 1) "./Interface1" U1 (ws 1%nat) = (Y1, ws 2%nat).
Proof.
  split; [exact rooted2_ready|]. split; [simpl; lia|].
  destruct (left_sweep_correct LIN DBL rooted2 [] rooted2_ready)
    as (l & ws & Hrun & Hw & _ & Hstep); [simpl; lia|].
  destruct (Hstep 1%nat)
    as (U1 & F1 & Y0 & Y1 & C1 & a & b & c & _ & HC & Hs & -> & HF & H0 & H1 & Hcall);
    [lia|simpl; lia|].
  simpl in HC, HF. simplify_eq. simpl in Hs. simplify_eq.
  exists l, ws, Y0, Y1, (mk_ndarray [4; 3]%nat (data (arange [2; 2; 3]%nat))).
  repeat (split; [done|]). exact Hcall.
Defined.

Lemma right_sweep_correct_witness :
  (∃ self w0, construct chain4 basis4 None [] = (Ok self, w0))
  ∧ ∃ self l ws Yprev Y1 U2,
      sweep_ready self ∧ root self ≤ d self - 2
      ∧ sweep self [] = (Ok l, ws 3%nat)
      ∧ l !! 2%nat = Some Yprev ∧ l !! 1%nat = Some Y1
      ∧ shape U2 = [3; 4]%nat
      ∧ DBL (Source 2) Yprev "./Interface1" (transpose U2) (ws 1%nat)
        = (Y1, ws 2%nat).
Proof.
  split; [eexists _, _; vm_compute; reflexivity|].
  set (self := mk_BlockTTtensor chain4 basis4 "./" 4 0 3 [2; 3; 2]%nat []).
  assert (Hready : sweep_ready self).
  { split; [reflexivity|]. split; [simpl; lia|]. split; [simpl; lia|].
    intros [|[|[|[|k]]]] Uk HUk Hk; simpl in *; simplify_eq; done. }
  destruct (right_sweep_correct LIN DBL self [] Hready)
    as (l & ws & Hrun & Hw & Hlen & _ & Hstep); [simpl; lia|].
  cbv zeta in *. simpl in Hlen.
  destruct (Hstep 1%nat)
    as (U2 & F2 & Yprev & Y1 & C2 & a & b & c & _ & HC & Hs & -> & HF & Hp & H1 & Hcall);
    [simpl; lia|].
  simpl in HC, HF. simplify_eq. simpl in Hs. simplify_eq.
  replace (length l) with 3%nat in * by lia.
  exists self, l, ws, Yprev, Y1, (mk_ndarray [3; 4]%nat (data (arange [3; 2; 2]%nat))).
  split; [done|]. split; [simpl; lia|].
  repeat (split; [done|]). exact Hcall.
Defined.

Lemma full_bond_coverage_witness :
  sweep_ready rooted2
  ∧ ∃ il bl w2, sweep rooted2 [] = (Ok (il ++ bl), w2)
                ∧ length il = 2%nat ∧ length bl = 1%nat.
Proof.
  split; [exact rooted2_ready|].
  destruct (full_bond_coverage LIN DBL rooted2 [] rooted2_ready)
    as (il & bl & Y1 & Y2 & w1 & w2 & _ & _ & Hrun & Hil & Hbl & _).
  exists il, bl, w2. split; [exact Hrun|]. simpl in Hil, Hbl. split; lia.
Defined.

Lemma cache_path_scheme_witness :
  sweep_ready rooted2
  ∧ (∃ l ws, sweep rooted2 [] = (Ok l, ws (length l)))
  ∧ (∀ self w', construct chain4 basis4 None [] = (Ok self, w') →
                tensordir self = "./"%string).
Proof.
  split; [exact rooted2_ready|].
  destruct (cache_path_scheme LIN DBL) as [Hpaths Hdir]. split.
  - destruct (Hpaths rooted2 [] rooted2_ready) as (l & ws & Hrun & _).
    by exists l, ws.
  - intros self w' Hc. exact (Hdir chain4 basis4 None [] self w' Hc).
Defined.

Lemma sweep_idempotent_witness :
  (sweep rooted2 (sweep rooted2 []).2).1 = (sweep rooted2 []).1.
Proof.
  refine (proj2 (sweep_idempotent LIN DBL _ _ rooted2) []);
    intros; reflexivity.
Defined.

Lemma construction_derives_ranks_witness :
  ∃ R1 Flast,
    extract_ranks mismatched (range 1) [0%nat] = Ok R1
    ∧ R1 !! 0%nat = Some 2%nat
    ∧ basis2 !! 1%nat = Some Flast.
Proof.
  destruct (construction_derives_ranks LIN DBL (arange [1; 5; 2; 4]%nat)
              [arange [3; 7; 1]%nat] basis2 None [])
    as (m & R1 & Ulast & Flast & a & b & c & H).
  - reflexivity.
  - repeat constructor.
  - discriminate.
  - simpl. lia.
  - cbv zeta in H. destruct H as (_ & Hranks & _ & Hent & _ & _ & HF & _).
    destruct (Hent 0%nat (arange [1; 5; 2; 4]%nat)) as (r & Hr & _ & Hsmall);
      [simpl; lia|reflexivity|].
    simpl in Hr. injection Hr as <-.
    exists R1, Flast. split; [exact Hranks|]. split; [|exact HF].
    apply Hsmall. simpl. lia.
Defined.

Lemma init_reads_fourth_axis_witness :
  construct three_axes_first basis2 None [] = (Raise IndexError, [])
  ∧ ∃ m, read_M chain4 = Ok m ∧ m = 3%nat.
Proof.
  split.
  - refine (proj2 (proj1 (init_reads_fourth_axis LIN DBL (arange [1; 2; 2]%nat)
              [arange [2; 2; 1]%nat] basis2 None []) _)).
    simpl. lia.
  - destruct (proj2 (init_reads_fourth_axis LIN DBL (arange [1; 2; 2; 3]%nat)
                [arange [2; 2; 3]%nat; arange [3; 2; 2]%nat; arange [2; 2; 1]%nat]
                basis4 None []) eq_refl) as (m & Hm & HM & _).
    exists m. split; [exact HM|]. simpl in Hm. congruence.
Defined.

Lemma ComponentTensor_unfolding_witness :
  U rooted2 !! 1%nat = Some (arange [2; 2; 3]%nat)
  ∧ (∃ L Rt, ComponentTensor rooted2 1 1 = Ok L ∧ shape L = [4; 3]%nat
             ∧ ComponentTensor rooted2 1 2 = Ok Rt ∧ shape Rt = [2; 6]%nat)
  ∧ ComponentTensor rooted2 2 1 = Ok (arange [3; 2; 2; 3]%nat).
Proof.
  split; [reflexivity|]. split.
  - destruct (proj1 (ComponentTensor_unfolding rooted2 1 (arange [2; 2; 3]%nat) eq_refl))
      with (a := 2%nat) (b := 2%nat) (c := 3%nat)
      as (L & Rt & HL & HsL & HR & HsR & _); [simpl; lia|reflexivity|].
    by exists L, Rt.
  - refine (proj2 (ComponentTensor_unfolding rooted2 2 (arange [3; 2; 2; 3]%nat) eq_refl)
              _ 1). reflexivity.
Defined.

Lemma SetComponentTensor_frame_witness :
  (1 < length (U rooted2))%nat
  ∧ ∃ self', SetComponentTensor rooted2 1 (arange [2; 9; 3]%nat) = Ok self'
             ∧ R self' = R rooted2 ∧ interfaces self' = interfaces rooted2.
Proof.
  assert (H : (1 < length (U rooted2))%nat) by (simpl; lia).
  split; [exact H|].
  destruct (SetComponentTensor_frame rooted2 1 (arange [2; 9; 3]%nat) H)
    as (self' & Hset & _ & _ & _ & HR & _ & _ & HI & _).
  exists self'. split; [exact Hset|]. split; [exact HR|exact HI].
Defined.

Lemma GetRanks_default_is_last_entry_witness :
  1 ≤ d rooted2
  ∧ GetRanks rooted2 None = Ok (OneRank 2)
  ∧ GetRanks rooted2 None ≠ Ok (AllRanks [2; 3; 2]%nat).
Proof.
  assert (H : 1 ≤ d rooted2) by (simpl; lia).
  split; [exact H|].
  destruct (GetRanks_default_is_last_entry rooted2 H) as (Hlast & Hne & _).
  split; [rewrite Hlast; reflexivity|exact Hne].
Defined.

(** C3 (the claim as stated fails). Component 1 has left rank 3 and
    component 0 has right rank 2, and construction returns an instance
    after the primitive has been called for bond 0. *)
Lemma rank_mismatch_accepted :
  (∃ U0 U1, mismatched = [U0; U1] ∧ shape U0 !! 2%nat = Some 2%nat
            ∧ shape U1 !! 0%nat = Some 3%nat)
  ∧ (∃ self, construct mismatched basis2 None [] = (Ok self, ["./Interface0"%string])
             ∧ R self = [2%nat]
             ∧ ∃ A, interfaces self = [Linear (Source 1) A "./Interface0"])
  ∧ ¬ ∃ e, construct mismatched basis2 None [] = (Raise e, []).
Proof.
  split; [by eexists _, _|]. split.
  - eexists. split; [vm_compute; reflexivity|]. split; [reflexivity|].
    eexists. reflexivity.
  - intros [e He]. vm_compute in He. discriminate.
Qed.

End Runs.

(** ** The further properties on concrete inputs *)

Module MoreRuns.
Import Trace.

Abbreviation LIN := Trace.ApplyLinearTransform.
Abbreviation DBL := Trace.DoubleProducts.

Lemma init_invariants_witness :
  ∃ self w', construct chain4 basis4 None [] = (Ok self, w')
             ∧ d self = 4 ∧ length (interfaces self) = 3%nat
             ∧ ∃ Y, GetInterface self (-3) = Ok Y.
Proof.
  destruct (construct chain4 basis4 None []) as [[self|e] w'] eqn:Hc;
    [|vm_compute in Hc; discriminate].
  destruct (init_invariants LIN DBL chain4 basis4 None [] self w' Hc)
    as (_ & _ & _ & Hd & _ & _ & _ & Hlen & Hget).
  exists self, w'. split; [reflexivity|]. simpl in Hd. split; [exact Hd|].
  split; [lia|]. apply Hget. lia.
Defined.

Lemma degenerate_chains_witness :
  ∃ self, construct [arange [1; 2; 1; 3]%nat] [] None [] = (Ok self, [])
          ∧ GetRanks self None = Raise IndexError.
Proof.
  destruct (proj2 (degenerate_chains LIN DBL) (arange [1; 2; 1; 3]%nat) [] None [])
    as (self & Hc & _ & _ & _ & _ & HG & _); [simpl; lia|].
  exists self. split; [exact Hc|apply HG].
Defined.

Lemma ranks_agree_with_triples_witness :
  ∃ self w' t,
    construct chain4 basis4 None [] = (Ok self, w')
    ∧ GetRankTriple self 1 = Ok t ∧ t !! 2%nat = Some 3%nat
    ∧ GetRanks self (Some 1) = Ok (OneRank 3).
Proof.
  destruct (construct chain4 basis4 None []) as [[self|e] w'] eqn:Hc;
    [|vm_compute in Hc; discriminate].
  destruct (ranks_agree_with_triples LIN DBL chain4 basis4 None [] self w' Hc)
    as [Hbond _].
  vm_compute in Hc. injection Hc as <- <-.
  destruct (Hbond 1%nat) as (t & r & HT & Ht & _ & HG); [simpl; lia|].
  assert (r = 3%nat) as ->.
  { vm_compute in HT. injection HT as <-. simpl in Ht. congruence. }
  eexists _, _, t. split; [reflexivity|]. split; [exact HT|]. split; [exact Ht|].
  apply HG. simpl. lia.
Defined.

Lemma SetInterface_GetInterface_witness :
  (∃ self', SetInterface cached4 (-1) (Source 20) = Ok self'
            ∧ GetInterface self' 2 = Ok (Source 20)
            ∧ GetInterface self' 0 = Ok (Source 10))
  ∧ SetInterface cached4 3 (Source 20) = Raise IndexError.
Proof.
  destruct (SetInterface_GetInterface cached4 (-1) (Source 20)) as [Hin _].
  destruct (SetInterface_GetInterface cached4 3 (Source 20)) as [_ Hout].
  cbv zeta in Hin, Hout. simpl in Hin, Hout. split.
  - destruct Hin as (self' & Hset & _ & _ & Hother & _); [lia|].
    exists self'. split; [exact Hset|].
    vm_compute in Hset. injection Hset as <-. split; reflexivity.
  - apply Hout. lia.
Defined.

Lemma SetComponentTensor_ComponentTensor_witness :
  (∃ self', SetComponentTensor cached4 (-3) (arange [2; 5; 3]%nat) = Ok self'
            ∧ ComponentTensor self' (-3) 0 = Ok (arange [2; 5; 3]%nat)
            ∧ GetRankTriple self' (-3) = Ok [2; 5; 3]%nat)
  ∧ SetComponentTensor cached4 4 (arange [2; 5; 3]%nat) = Raise IndexError.
Proof.
  destruct (SetComponentTensor_ComponentTensor cached4 (-3) (arange [2; 5; 3]%nat))
    as [Hin _].
  destruct (SetComponentTensor_ComponentTensor cached4 4 (arange [2; 5; 3]%nat))
    as [_ Hout].
  cbv zeta in Hin, Hout. simpl in Hin, Hout. split.
  - destruct Hin as (self' & Hset & Hnat & HT & _); [lia|].
    exists self'. split; [exact Hset|]. split; [apply Hnat; left; lia|exact HT].
  - apply Hout. lia.
Defined.

Lemma ranks_go_stale_witness :
  ∃ self', SetComponentTensor cached4 1 (arange [2; 2; 7]%nat) = Ok self'
           ∧ GetRankTriple self' 1 = Ok [2; 2; 7]%nat
           ∧ GetRanks self' (Some 1) = Ok (OneRank 3).
Proof.
  destruct (ranks_go_stale cached4 1 (arange [2; 2; 7]%nat) 2 2 7 3)
    as (self' & Hset & HT & HG & _).
  - simpl. lia.
  - simpl. lia.
  - reflexivity.
  - reflexivity.
  - exists self'. split; [exact Hset|]. split; [exact HT|exact HG].
Defined.

Lemma ComponentTensor_unfolds_iff_witness :
  ComponentTensor odd_shapes 1 1 = Raise ValueError
  ∧ ComponentTensor odd_shapes 2 1 = Raise IndexError.
Proof.
  split.
  - destruct (ComponentTensor_unfolds_iff odd_shapes 1 (arange [2; 2; 3; 2]%nat))
      as [_ H4]; [reflexivity|simpl; lia|].
    destruct (H4 2%nat 2%nat 3%nat [2%nat] eq_refl) as [_ Hbad].
    apply Hbad. simpl. lia.
  - destruct (ComponentTensor_unfolds_iff odd_shapes 2 (arange [2]%nat))
      as [Hshort _]; [reflexivity|simpl; lia|].
    apply Hshort. simpl. lia.
Defined.

Lemma root_alias_is_unfolded_witness :
  ComponentTensor cached4 0 1 = Ok (arange [1; 2; 2; 3]%nat)
  ∧ ComponentTensor cached4 (-4) 1 = Raise ValueError.
Proof.
  destruct (root_alias_is_unfolded cached4 0 (arange [1; 2; 2; 3]%nat) 1 2 2 3)
    as (Hroot & _ & Hbad & _); [reflexivity..|].
  split; [exact Hroot|]. apply Hbad. simpl. lia.
Defined.

Lemma sweep_ignores_root_witness :
  ∃ self', SetComponentTensor cached4 0 (arange [1; 2; 2; 9]%nat) = Ok self'
           ∧ sweep self' [] = sweep cached4 [].
Proof.
  destruct (SetComponentTensor cached4 0 (arange [1; 2; 2; 9]%nat))
    as [self'|e] eqn:Hset; [|vm_compute in Hset; discriminate].
  exists self'. split; [reflexivity|].
  refine (proj1 (sweep_ignores_root LIN DBL cached4 _) _ self' [] Hset).
  simpl. lia.
Defined.

Lemma right_matrix_entries_witness :
  ∃ Uk, ComponentTensor cached4 2 2 = Ok Uk
        ∧ shape (transpose Uk) = [4; 3]%nat
        ∧ item (transpose Uk) [3; 2]%nat = item (arange [3; 2; 2]%nat) [2; 1; 1]%nat.
Proof.
  destruct (right_matrix_entries cached4 2 (arange [3; 2; 2]%nat) 3 2 2)
    as (Uk & HU & Hs & _ & Hent); [reflexivity|simpl; lia|reflexivity|reflexivity|].
  exists Uk. split; [exact HU|]. split; [exact Hs|].
  apply (Hent 2%nat 1%nat 1%nat); lia.
Defined.

Lemma missing_basis_source_witness :
  construct chain4 basis2 None [] = (Raise IndexError, []).
Proof.
  apply (missing_basis_source LIN DBL (arange [1; 2; 2; 3]%nat)
           [arange [2; 2; 3]%nat; arange [3; 2; 2]%nat; arange [2; 2; 1]%nat]
           basis2 None []).
  - reflexivity.
  - repeat constructor.
  - discriminate.
  - simpl. lia.
Defined.

Lemma ComputeInterfaces_length_witness :
  ∃ l w', sweep rooted2 [] = (Ok l, w') ∧ length l = 3%nat.
Proof.
  destruct (sweep rooted2 []) as [[l|e] w'] eqn:Hrun;
    [|vm_compute in Hrun; discriminate].
  destruct (ComputeInterfaces_length LIN DBL rooted2 [] l w' Hrun) as [_ Hlen].
  exists l, w'. split; [reflexivity|]. simpl in Hlen. lia.
Defined.

Lemma cache_writes_in_order_witness :
  (sweep rooted2 []).2 = ["./Interface0"; "./Interface1"; "./Interface2"]%string.
Proof.
  destruct (cache_writes_in_order rooted2 []) as (n & Hn & Hw & _ & Hok).
  destruct (sweep rooted2 []) as [[l|e] w'] eqn:Hrun;
    [|vm_compute in Hrun; discriminate].
  destruct (Hok l w' eq_refl) as [-> _]. exact Hw.
Defined.

End MoreRuns.
